(** * The animation job orchestrator of wan-animate-airtable

    A shallow embedding of the [POST /generate-animation] handler of
    [src/server.js] and of its second variant [src/unnamed/part_000]
    (same handler; fixed mode and resolution, configurable table and
    URLs, result stored by reference instead of being downloaded first).

    The handler talks to three collaborators: the record store
    (Airtable [find] / [update]), the generation API ([fetch]) and the
    clock.  A run is modelled as a pure function of a [World], the
    answers the collaborators give at each call site, and returns the
    ordered list of requests it issued together with its result.
    Console output and HTTP headers are left out of the trace. *)

From Stdlib Require Import String Ascii ZArith List Lia Bool Arith DecimalString.
From Stdlib Require Import Sorted.
From Equations Require Import Equations.
Import ListNotations.

Set Warnings "-register-all".

Open Scope string_scope.
Open Scope list_scope.

(** Template literals: [`a${b}`] is a concatenation of strings. *)
Notation "a ^^ b" := (String.append a b) (at level 60, right associativity).

Definition LF : string := String (ascii_of_nat 10) EmptyString.

(** ** JavaScript values

    The values the handler manipulates are the ones [JSON.parse] and the
    Airtable client produce, plus [undefined].  Numbers are restricted to
    integers.  An object is the list of its own properties; a property is
    looked up by the first binding of its name. *)

Module JS.

Inductive value : Type :=
| VUndefined
| VNull
| VBool (b : bool)
| VNum (n : Z)
| VStr (s : string)
| VArr (items : list value)
| VObj (props : list (string * value)).

(** A thrown [Error]; only [error.message] is ever read. *)
Record exn : Type := Error { message : string }.

Inductive Res (A : Type) : Type :=
| Ok (a : A)
| Throw (e : exn).
Arguments Ok {A} a.
Arguments Throw {A} e.

Definition is_ok {A} (r : Res A) : bool :=
  match r with Ok _ => true | Throw _ => false end.

(** [ToBoolean]. *)
Definition truthy (v : value) : bool :=
  match v with
  | VUndefined | VNull => false
  | VBool b => b
  | VNum n => negb (n =? 0)%Z
  | VStr s => negb (s =? "")%string
  | VArr _ | VObj _ => true
  end.

(** [a || b] on values. *)
Definition or_else (a b : value) : value := if truthy a then a else b.

(** [v === 'lit'] and [v === 200]. *)
Definition is_string (v : value) (lit : string) : bool :=
  match v with VStr s => (s =? lit)%string | _ => false end.

Definition is_number (v : value) (lit : Z) : bool :=
  match v with VNum n => (n =? lit)%Z | _ => false end.

Definition string_of_Z (n : Z) : string := NilZero.string_of_int (Z.to_int n).
Definition string_of_nat (n : nat) : string := NilZero.string_of_uint (Nat.to_uint n).

(** [ToString], as applied by a template literal. *)
Fixpoint to_String (v : value) : string :=
  match v with
  | VUndefined => "undefined"
  | VNull => "null"
  | VBool true => "true"
  | VBool false => "false"
  | VNum n => string_of_Z n
  | VStr s => s
  | VArr items =>
      (fix join (l : list value) : string :=
         match l with
         | [] => ""
         | x :: tl =>
             match x with
             | VUndefined | VNull => ""
             | _ => to_String x
             end ^^
             match tl with
             | [] => ""
             | _ :: _ => "," ^^ join tl
             end
         end) items
  | VObj _ => "[object Object]"
  end.

Fixpoint assoc {A} (k : string) (l : list (string * A)) : option A :=
  match l with
  | [] => None
  | (k', v) :: tl => if (k' =? k)%string then Some v else assoc k tl
  end.

Definition has_key {A} (k : string) (l : list (string * A)) : bool :=
  match assoc k l with Some _ => true | None => false end.

(** [o.k = v] on the property list of an object. *)
Fixpoint set_prop (k : string) (v : value) (l : list (string * value))
  : list (string * value) :=
  match l with
  | [] => [(k, v)]
  | (k', v') :: tl =>
      if (k' =? k)%string then (k, v) :: tl else (k', v') :: set_prop k v tl
  end.

Definition type_error (base : string) (k : string) : exn :=
  Error ("Cannot read properties of " ^^ base ^^ " (reading '" ^^ k ^^ "')").

(** [o.k] for an identifier [k].  None of the names the handler reads
    is inherited from a prototype, so primitives and arrays answer
    [undefined] except for [length]. *)
Definition member (o : value) (k : string) : Res value :=
  match o with
  | VUndefined => Throw (type_error "undefined" k)
  | VNull => Throw (type_error "null" k)
  | VObj props =>
      Ok (match assoc k props with Some v => v | None => VUndefined end)
  | VArr items =>
      Ok (if (k =? "length")%string then VNum (Z.of_nat (length items))
          else VUndefined)
  | VStr s =>
      Ok (if (k =? "length")%string then VNum (Z.of_nat (String.length s))
          else VUndefined)
  | VBool _ | VNum _ => Ok VUndefined
  end.

(** [o[i]] for a literal index [i]. *)
Definition element (o : value) (i : nat) : Res value :=
  match o with
  | VUndefined => Throw (type_error "undefined" (string_of_nat i))
  | VNull => Throw (type_error "null" (string_of_nat i))
  | VObj props =>
      Ok (match assoc (string_of_nat i) props with
          | Some v => v
          | None => VUndefined
          end)
  | VArr items => Ok (nth i items VUndefined)
  | VStr s =>
      Ok (match String.get i s with
          | Some c => VStr (String c EmptyString)
          | None => VUndefined
          end)
  | VBool _ | VNum _ => Ok VUndefined
  end.

Definition nullish (v : value) : bool :=
  match v with VUndefined | VNull => true | _ => false end.

(** [o?.k] and [o?.[i]]. *)
Definition opt_member (o : value) (k : string) : Res value :=
  if nullish o then Ok VUndefined else member o k.

Definition opt_element (o : value) (i : nat) : Res value :=
  if nullish o then Ok VUndefined else element o i.

End JS.
Export JS.

(** ** Requests, collaborators and the run monad *)

(** The [update] calls of the handler, by the place they are written at:
    before submission, after submission (job id), once per loop
    iteration, on completion, and in the [catch] block. *)
Inductive UpdateSite : Type :=
| AtStart
| AtJobId
| AtProgress (attempt : nat)
| AtCompleted (attempt : nat)
| AtFailed.

(** The clock readings ([new Date()] and [Date.now()]), likewise. *)
Inductive ClockSite : Type :=
| Started
| Submitted
| LoopStart
| Tick (attempt : nat)
| Finished (attempt : nat)
| Failed.

(** A reading of the clock: [Date.now()] and [toISOString()]. *)
Record Date : Type := { ms : Z; iso : string }.

(** What the handler asks of the outside, in the order it asks. *)
Inductive Event : Type :=
| Respond (status : Z) (body : value)
| Find (table : string) (recordId : value)
| Update (site : UpdateSite) (table : string) (recordId : value)
         (fields : list (string * value)) (accepted : bool)
| Submit (url : string) (payload : list (string * value))
| Sleep (ms : Z)
| Poll (attempt : nat) (url : string)
| Download (url : value).

(** The answers of the collaborators.  [Throw] stands for a rejected
    promise: a transport error, an unparsable body, a store error.
    The handler is deterministic and reaches each call site at most
    once per attempt, so whatever the collaborators do during one run
    is such a table of answers. *)
Record World : Type := {
  find_result : Res value;
  update_result : UpdateSite -> Res unit;
  (** [submitResponse.ok] and [await submitResponse.json()] *)
  submit_result : Res (bool * value);
  (** [await resultResponse.json()] of the check of each attempt *)
  poll_result : nat -> Res value;
  (** [fetch(videoUrl)] and [arrayBuffer()], in [server.js] only *)
  download_result : nat -> Res unit;
  clock : ClockSite -> Date
}.

(** [process.env] as read by [part_000]. *)
Record Env : Type := {
  AIRTABLE_TABLE : option string;
  WAVESPEED_BASE : option string;
  WAVESPEED_SUBMIT_PATH : option string;
  WAVESPEED_RESULT_PATH : option string
}.

(** [process.env.X || dflt] *)
Definition env_or (x : option string) (dflt : string) : string :=
  match x with
  | Some s => if (s =? "")%string then dflt else s
  | None => dflt
  end.

(** The two source files. *)
Inductive Source : Type :=
| server_js
| part_000 (env : Env).

(** A computation: the requests issued, then a value or a thrown error. *)
Definition M (A : Type) : Type := (list Event * Res A)%type.

Definition trace {A} (m : M A) : list Event := fst m.
Definition result {A} (m : M A) : Res A := snd m.

Definition ret {A} (a : A) : M A := ([], Ok a).
Definition throw {A} (e : exn) : M A := ([], Throw e).
Definition lift {A} (r : Res A) : M A := ([], r).
Definition call {A} (ev : Event) (r : Res A) : M A := ([ev], r).

Definition bind {A B} (m : M A) (f : A -> M B) : M B :=
  match m with
  | (t, Ok a) => let (t', r) := f a in (t ++ t', r)
  | (t, Throw e) => (t, Throw e)
  end.

(** [try { m } catch (error) { h error }] *)
Definition try_catch {A} (m : M A) (h : exn -> M A) : M A :=
  match m with
  | (t, Ok a) => (t, Ok a)
  | (t, Throw e) => let (t', r) := h e in (t ++ t', r)
  end.

Notation "x <- m ;; k" := (bind m (fun x => k))
  (at level 61, m at next level, right associativity).
Notation "m ;; k" := (bind m (fun _ => k))
  (at level 61, right associativity).

(** ** The handler *)

Definition maxAttempts : nat := 120.

Definition inspect {A : Type} (x : A) : { y : A | x = y } := exist _ x eq_refl.

Section Handler.

Variable src : Source.
Variable w : World.
Variable recordId : value.

Definition table : string :=
  match src with
  | server_js => "animate_generation"
  | part_000 env => env_or (AIRTABLE_TABLE env) "animate_generation"
  end.

Definition base_url : string :=
  match src with
  | server_js => "https://api.wavespeed.ai"
  | part_000 env => env_or (WAVESPEED_BASE env) "https://api.wavespeed.ai"
  end.

Definition submitUrl : string :=
  match src with
  | server_js => "https://api.wavespeed.ai/api/v3/wavespeed-ai/wan-2.2/animate"
  | part_000 env =>
      base_url ^^ "/" ^^
      env_or (WAVESPEED_SUBMIT_PATH env) "api/v3/wavespeed-ai/wan-2.2/animate"
  end.

Definition resultUrl (jobId : value) : string :=
  match src with
  | server_js =>
      "https://api.wavespeed.ai/api/v3/predictions/" ^^ to_String jobId ^^ "/result"
  | part_000 env =>
      base_url ^^ env_or (WAVESPEED_RESULT_PATH env) "/api/v3/predictions" ^^
      "/" ^^ to_String jobId ^^ "/result"
  end.

(** [base(table).find(recordId)] *)
Definition find : M value := call (Find table recordId) (find_result w).

(** [base(table).update(recordId, fields)] *)
Definition update (site : UpdateSite) (fields : list (string * value)) : M unit :=
  call (Update site table recordId fields (is_ok (update_result w site)))
       (update_result w site).

(** [record.fields.name] *)
Definition field (record : value) (name : string) : Res value :=
  match member record "fields" with
  | Ok fields => member fields name
  | Throw e => Throw e
  end.

(** [record.fields.name?.[0]?.url] *)
Definition first_url (record : value) (name : string) : Res value :=
  match field record name with
  | Ok attachments =>
      match opt_element attachments 0 with
      | Ok first => opt_member first "url"
      | Throw e => Throw e
      end
  | Throw e => Throw e
  end.

(** [record.fields.name || dflt] *)
Definition field_or (record : value) (name : string) (dflt : value) : Res value :=
  match field record name with
  | Ok v => Ok (or_else v dflt)
  | Throw e => Throw e
  end.

Definition mode_of (record : value) : Res value :=
  match src with
  | server_js => field_or record "mode" (VStr "animate")
  | part_000 _ => Ok (VStr "animate")
  end.

Definition resolution_of (record : value) : Res value :=
  match src with
  | server_js => field_or record "resolution" (VStr "480p")
  | part_000 _ => Ok (VStr "720p")
  end.

(** The object literal [submitPayload], then
    [if (prompt) submitPayload.prompt = prompt]. *)
Definition submitPayload (inputImage inputVideo mode resolution seed prompt : value)
  : list (string * value) :=
  let payload := [ ("image", inputImage); ("video", inputVideo); ("mode", mode);
                   ("resolution", resolution); ("seed", seed) ] in
  if truthy prompt then set_prop "prompt" prompt payload else payload.

(** [!submitResponse.ok || submitResult.code !== 200] *)
Definition submit_rejected (ok : bool) (submitResult : value) : Res bool :=
  if negb ok then Ok true
  else match member submitResult "code" with
       | Ok code => Ok (negb (is_number code 200))
       | Throw e => Throw e
       end.

(** [new Error(`API error: ${submitResult.message || 'Unknown error'}`)] *)
Definition api_error (submitResult : value) : Res exn :=
  match member submitResult "message" with
  | Ok msg => Ok (Error ("API error: " ^^ to_String (or_else msg (VStr "Unknown error"))))
  | Throw e => Throw e
  end.

(** [submitResult.data.id] *)
Definition job_id_of (submitResult : value) : Res value :=
  match member submitResult "data" with
  | Ok data => member data "id"
  | Throw e => Throw e
  end.

(** [result.data?.name] *)
Definition data_field (res : value) (name : string) : Res value :=
  match member res "data" with
  | Ok data => opt_member data name
  | Throw e => Throw e
  end.

(** [result.data.outputs?.[0]] *)
Definition first_output (res : value) : Res value :=
  match member res "data" with
  | Ok data =>
      match member data "outputs" with
      | Ok outputs => opt_element outputs 0
      | Throw e => Throw e
      end
  | Throw e => Throw e
  end.

Definition start_fields (mode resolution : value) : list (string * value) :=
  [ ("status", VStr "Generating...");
    ("error_log", VStr ("Started at " ^^ iso (clock w Started) ^^ LF ^^
                        "Mode: " ^^ to_String mode ^^ LF ^^
                        "Resolution: " ^^ to_String resolution)) ].

Definition job_fields (jobId : value) : list (string * value) :=
  [ ("job_id", jobId);
    ("status", VStr "Processing...");
    ("error_log", VStr ("Job ID: " ^^ to_String jobId ^^ LF ^^
                        "Submitted at " ^^ iso (clock w Submitted))) ].

(** [Math.floor((Date.now() - startTime) / 1000)] *)
Definition elapsed_at (startTime : Z) (attempt : nat) : Z :=
  ((ms (clock w (Tick attempt)) - startTime) / 1000)%Z.

Definition progress_fields (jobId : value) (elapsed : Z) (attempt : nat)
  : list (string * value) :=
  [ ("status", VStr ("Generating... " ^^ string_of_Z elapsed ^^ "s elapsed"));
    ("error_log", VStr ("Job ID: " ^^ to_String jobId ^^ LF ^^
                        "Processing... (attempt " ^^ string_of_nat attempt ^^ "/" ^^
                        string_of_nat maxAttempts ^^ ")")) ].

(** The value stored in [output_video]: an attachment list in
    [server.js], the bare URL in [part_000]. *)
Definition output_video_of (videoUrl : value) : value :=
  match src with
  | server_js => VArr [VObj [("url", videoUrl)]]
  | part_000 _ => videoUrl
  end.

Definition completed_fields (videoUrl : value) (elapsed : Z) (attempt : nat)
  : list (string * value) :=
  [ ("output_video", output_video_of videoUrl);
    ("status", VStr "Completed");
    ("error_log", VStr ("Completed at " ^^ iso (clock w (Finished attempt)) ^^ LF ^^
                        "Total time: " ^^ string_of_Z elapsed ^^ "s" ^^ LF ^^
                        match src with
                        | server_js => "Video: "
                        | part_000 _ => "Video URL: "
                        end ^^ to_String videoUrl)) ].

Definition failed_fields (error : exn) : list (string * value) :=
  [ ("status", VStr "Failed");
    ("error_log", VStr ("Error: " ^^ message error ^^ LF ^^
                        "Time: " ^^ iso (clock w Failed))) ].

(** [server.js] downloads the video before the final write;
    [part_000] stores the URL directly. *)
Definition download (attempt : nat) (videoUrl : value) : M unit :=
  match src with
  | server_js => call (Download videoUrl) (download_result w attempt)
  | part_000 _ => ret tt
  end.

(** One iteration of the poll loop, after [attempt++]; the value
    returned is the new [completed]. *)
Definition poll_once (jobId : value) (startTime : Z) (attempt : nat) : M bool :=
  call (Sleep 5000) (Ok tt) ;;
  let elapsed := elapsed_at startTime attempt in
  update (AtProgress attempt) (progress_fields jobId elapsed attempt) ;;
  res <- call (Poll attempt (resultUrl jobId)) (poll_result w attempt) ;;
  status <- lift (data_field res "status") ;;
  if is_string status "completed" then
    videoUrl <- lift (first_output res) ;;
    if negb (truthy videoUrl) then
      throw (Error "No video URL in completed response")
    else
      download attempt videoUrl ;;
      update (AtCompleted attempt) (completed_fields videoUrl elapsed attempt) ;;
      ret true
  else if is_string status "failed" then
    error <- lift (data_field res "error") ;;
    throw (Error ("Generation failed: " ^^
                  to_String (or_else error (VStr "Unknown error"))))
  else
    ret false.

#[local] Opaque maxAttempts.

(** [while (attempt < maxAttempts && !completed) { attempt++; ... }];
    the value returned is [completed] at the exit of the loop. *)
Equations while_polling (jobId : value) (startTime : Z)
          (attempt : nat) (completed : bool) : M bool
  by wf (maxAttempts - attempt) lt :=
  while_polling jobId startTime attempt completed
    with inspect ((attempt <? maxAttempts)%nat && negb completed) := {
    | exist _ true _ =>
        completed' <- poll_once jobId startTime (S attempt) ;;
        while_polling jobId startTime (S attempt) completed'
    | exist _ false _ => ret completed }.
Next Obligation.
  match goal with
  | H : (_ && _)%bool = true |- _ =>
      apply andb_prop in H; destruct H as [H _]; apply Nat.ltb_lt in H; lia
  end.
Qed.

#[local] Transparent maxAttempts.

(** The body of the [try] block. *)
Definition background : M unit :=
  record <- find ;;
  inputImage <- lift (first_url record "input_image") ;;
  inputVideo <- lift (first_url record "input_video") ;;
  prompt <- lift (field_or record "prompt" (VStr "")) ;;
  mode <- lift (mode_of record) ;;
  resolution <- lift (resolution_of record) ;;
  seed <- lift (field_or record "seed" (VNum (-1))) ;;
  if negb (truthy inputImage) then throw (Error "No input image found")
  else if negb (truthy inputVideo) then throw (Error "No input video found")
  else
    update AtStart (start_fields mode resolution) ;;
    submitted <-
       call (Submit submitUrl
               (submitPayload inputImage inputVideo mode resolution seed prompt))
            (submit_result w) ;;
    let '(ok, submitResult) := submitted in
    rejected <- lift (submit_rejected ok submitResult) ;;
    if rejected : bool then
      error <- lift (api_error submitResult) ;;
      throw error
    else
      jobId <- lift (job_id_of submitResult) ;;
      update AtJobId (job_fields jobId) ;;
      let startTime := ms (clock w LoopStart) in
      completed <- while_polling jobId startTime 0 false ;;
      if negb completed then
        throw (Error "Timeout: Animation generation took too long")
      else ret tt.

(** The [catch] block: a best-effort write of the failure. *)
Definition on_error (error : exn) : M unit :=
  try_catch (update AtFailed (failed_fields error)) (fun _ => ret tt).

(** [app.post('/generate-animation', ...)], given [req.body.recordId]. *)
Definition generate_animation : M unit :=
  if negb (truthy recordId) then
    call (Respond 400 (VObj [("error", VStr "recordId is required")])) (Ok tt)
  else
    call (Respond 200 (VObj [ ("success", VBool true);
                              ("message", VStr "Animation generation started");
                              ("recordId", recordId) ])) (Ok tt) ;;
    try_catch background on_error.

End Handler.

(** ** The paths through the handler

    The runs of the loop body, of the loop and of the [try] block,
    described by the exit they take.  Each relation is shown below to
    hold of the function it describes; the properties of runs are then
    proved by induction on, or inversion of, these derivations. *)

Section Paths.

Variable src : Source.
Variable w : World.
Variable recordId : value.

(** The write in the [catch] block, when the [try] block threw. *)
Definition failure_tail (r : Res unit) : list Event :=
  match r with
  | Ok _ => []
  | Throw e =>
      [Update AtFailed (table src) recordId (failed_fields w e)
              (is_ok (update_result w AtFailed))]
  end.

Section Loop.

Variable jobId : value.
Variable startTime : Z.

Definition Progress (k : nat) (acc : bool) : Event :=
  Update (AtProgress k) (table src) recordId
         (progress_fields jobId (elapsed_at w startTime k) k) acc.

Definition Check (k : nat) : Event := Poll k (resultUrl src jobId).

Definition Completion (k : nat) (videoUrl : value) (acc : bool) : Event :=
  Update (AtCompleted k) (table src) recordId
         (completed_fields src w videoUrl (elapsed_at w startTime k) k) acc.

(** [new Error(`Generation failed: ${result.data?.error || 'Unknown error'}`)] *)
Definition generation_failed (error : value) : exn :=
  Error ("Generation failed: " ^^ to_String (or_else error (VStr "Unknown error"))).

(** Attempt [k] saw a completed job with a usable output. *)
Definition Succeeds (k : nat) (videoUrl : value) : Prop :=
  exists res status,
    poll_result w k = Ok res /\
    data_field res "status" = Ok status /\
    is_string status "completed" = true /\
    first_output res = Ok videoUrl /\
    truthy videoUrl = true.

(** The requests of attempt [k]. *)
Definition LoopRequest (k : nat) (ev : Event) : Prop :=
  ev = Sleep 5000 \/
  ev = Progress k (is_ok (update_result w (AtProgress k))) \/
  (ev = Check k /\ update_result w (AtProgress k) = Ok tt) \/
  (exists u, Succeeds k u /\
             ((ev = Download u /\ src = server_js) \/
              ev = Completion k u (is_ok (update_result w (AtCompleted k))))).

(** A check answered by a status that is neither terminal one. *)
Definition nonterminal (r : Res value) : Prop :=
  exists res status,
    r = Ok res /\ data_field res "status" = Ok status /\
    is_string status "completed" = false /\ is_string status "failed" = false.

(** One iteration, attempt [k]. *)
Inductive Iter (k : nat) : list Event -> Res bool -> Prop :=
| iter_progress_rejected e :
    update_result w (AtProgress k) = Throw e ->
    Iter k [Sleep 5000; Progress k false] (Throw e)
| iter_transport e :
    update_result w (AtProgress k) = Ok tt ->
    poll_result w k = Throw e ->
    Iter k [Sleep 5000; Progress k true; Check k] (Throw e)
| iter_malformed res e :
    update_result w (AtProgress k) = Ok tt ->
    poll_result w k = Ok res ->
    data_field res "status" = Throw e ->
    Iter k [Sleep 5000; Progress k true; Check k] (Throw e)
| iter_pending res status :
    update_result w (AtProgress k) = Ok tt ->
    poll_result w k = Ok res ->
    data_field res "status" = Ok status ->
    is_string status "completed" = false ->
    is_string status "failed" = false ->
    Iter k [Sleep 5000; Progress k true; Check k] (Ok false)
| iter_failed res status error :
    update_result w (AtProgress k) = Ok tt ->
    poll_result w k = Ok res ->
    data_field res "status" = Ok status ->
    is_string status "completed" = false ->
    is_string status "failed" = true ->
    data_field res "error" = Ok error ->
    Iter k [Sleep 5000; Progress k true; Check k] (Throw (generation_failed error))
| iter_no_outputs res status e :
    update_result w (AtProgress k) = Ok tt ->
    poll_result w k = Ok res ->
    data_field res "status" = Ok status ->
    is_string status "completed" = true ->
    first_output res = Throw e ->
    Iter k [Sleep 5000; Progress k true; Check k] (Throw e)
| iter_no_url res status videoUrl :
    update_result w (AtProgress k) = Ok tt ->
    poll_result w k = Ok res ->
    data_field res "status" = Ok status ->
    is_string status "completed" = true ->
    first_output res = Ok videoUrl ->
    truthy videoUrl = false ->
    Iter k [Sleep 5000; Progress k true; Check k]
         (Throw (Error "No video URL in completed response"))
| iter_download_fails res status videoUrl e :
    update_result w (AtProgress k) = Ok tt ->
    poll_result w k = Ok res ->
    data_field res "status" = Ok status ->
    is_string status "completed" = true ->
    first_output res = Ok videoUrl ->
    truthy videoUrl = true ->
    src = server_js ->
    download_result w k = Throw e ->
    Iter k [Sleep 5000; Progress k true; Check k; Download videoUrl] (Throw e)
| iter_write_rejected res status videoUrl e :
    update_result w (AtProgress k) = Ok tt ->
    poll_result w k = Ok res ->
    data_field res "status" = Ok status ->
    is_string status "completed" = true ->
    first_output res = Ok videoUrl ->
    truthy videoUrl = true ->
    result (download src w k videoUrl) = Ok tt ->
    update_result w (AtCompleted k) = Throw e ->
    Iter k ([Sleep 5000; Progress k true; Check k] ++
            trace (download src w k videoUrl) ++ [Completion k videoUrl false])
         (Throw e)
| iter_completed res status videoUrl :
    update_result w (AtProgress k) = Ok tt ->
    poll_result w k = Ok res ->
    data_field res "status" = Ok status ->
    is_string status "completed" = true ->
    first_output res = Ok videoUrl ->
    truthy videoUrl = true ->
    result (download src w k videoUrl) = Ok tt ->
    update_result w (AtCompleted k) = Ok tt ->
    Iter k ([Sleep 5000; Progress k true; Check k] ++
            trace (download src w k videoUrl) ++ [Completion k videoUrl true])
         (Ok true).

(** The loop, entered with [attempt = a] and [completed = c]. *)
Inductive Loop : nat -> bool -> list Event -> Res bool -> Prop :=
| loop_exit a c :
    (a <? maxAttempts)%nat && negb c = false ->
    Loop a c [] (Ok c)
| loop_throw a c t e :
    (a <? maxAttempts)%nat && negb c = true ->
    Iter (S a) t (Throw e) ->
    Loop a c t (Throw e)
| loop_next a c t c' t' r :
    (a <? maxAttempts)%nat && negb c = true ->
    Iter (S a) t (Ok c') ->
    Loop (S a) c' t' r ->
    Loop a c (t ++ t') r.

(** What follows the loop: [if (!completed) throw ...]. *)
Definition finish (r : Res bool) : Res unit :=
  match r with
  | Ok true => Ok tt
  | Ok false => Throw (Error "Timeout: Animation generation took too long")
  | Throw e => Throw e
  end.

End Loop.

(** The constants read from the record at the top of the [try] block. *)
Record Inputs : Type := {
  in_image : value;
  in_video : value;
  in_prompt : value;
  in_mode : value;
  in_resolution : value;
  in_seed : value
}.

(** The six reads, in the order of the source; the first one that
    throws decides. *)
Definition read_inputs (record : value) : Res Inputs :=
  match first_url record "input_image" with
  | Throw e => Throw e
  | Ok inputImage =>
  match first_url record "input_video" with
  | Throw e => Throw e
  | Ok inputVideo =>
  match field_or record "prompt" (VStr "") with
  | Throw e => Throw e
  | Ok prompt =>
  match mode_of src record with
  | Throw e => Throw e
  | Ok mode =>
  match resolution_of src record with
  | Throw e => Throw e
  | Ok resolution =>
  match field_or record "seed" (VNum (-1)) with
  | Throw e => Throw e
  | Ok seed =>
      Ok {| in_image := inputImage; in_video := inputVideo; in_prompt := prompt;
            in_mode := mode; in_resolution := resolution; in_seed := seed |}
  end end end end end end.

Definition Reads (record : value) (i : Inputs) : Prop := read_inputs record = Ok i.

Definition Valid (i : Inputs) : Prop :=
  truthy (in_image i) = true /\ truthy (in_video i) = true.

Definition Fetch : Event := Find (table src) recordId.

Definition Start (i : Inputs) (acc : bool) : Event :=
  Update AtStart (table src) recordId
         (start_fields w (in_mode i) (in_resolution i)) acc.

Definition Submission (i : Inputs) : Event :=
  Submit (submitUrl src)
         (submitPayload (in_image i) (in_video i) (in_mode i)
                        (in_resolution i) (in_seed i) (in_prompt i)).

Definition Persist (jobId : value) (acc : bool) : Event :=
  Update AtJobId (table src) recordId (job_fields w jobId) acc.

(** The submission did not yield a job: the call was rejected, the
    response failed the success check, or reading it threw. *)
Inductive SubmitStops : exn -> Prop :=
| stops_transport e :
    submit_result w = Throw e -> SubmitStops e
| stops_check_throws ok body e :
    submit_result w = Ok (ok, body) ->
    submit_rejected ok body = Throw e -> SubmitStops e
| stops_rejected ok body e :
    submit_result w = Ok (ok, body) ->
    submit_rejected ok body = Ok true ->
    api_error body = Ok e -> SubmitStops e
| stops_message_throws ok body e :
    submit_result w = Ok (ok, body) ->
    submit_rejected ok body = Ok true ->
    api_error body = Throw e -> SubmitStops e
| stops_no_data ok body e :
    submit_result w = Ok (ok, body) ->
    submit_rejected ok body = Ok false ->
    job_id_of body = Throw e -> SubmitStops e.

Definition Accepted (jobId : value) : Prop :=
  exists ok body,
    submit_result w = Ok (ok, body) /\
    submit_rejected ok body = Ok false /\
    job_id_of body = Ok jobId.

(** The record could not be fetched or read, or lacks an input. *)
Inductive NoInputs : exn -> Prop :=
| no_record e :
    find_result w = Throw e -> NoInputs e
| no_fields record e :
    find_result w = Ok record -> read_inputs record = Throw e -> NoInputs e
| no_image record i :
    find_result w = Ok record -> Reads record i ->
    truthy (in_image i) = false ->
    NoInputs (Error "No input image found")
| no_video record i :
    find_result w = Ok record -> Reads record i ->
    truthy (in_image i) = true -> truthy (in_video i) = false ->
    NoInputs (Error "No input video found").

(** The [try] block. *)
Inductive Path : list Event -> Res unit -> Prop :=
| path_no_inputs e :
    NoInputs e ->
    Path [Fetch] (Throw e)
| path_start_rejected record i e :
    find_result w = Ok record -> Reads record i -> Valid i ->
    update_result w AtStart = Throw e ->
    Path [Fetch; Start i false] (Throw e)
| path_submit_stops record i e :
    find_result w = Ok record -> Reads record i -> Valid i ->
    update_result w AtStart = Ok tt ->
    SubmitStops e ->
    Path [Fetch; Start i true; Submission i] (Throw e)
| path_persist_rejected record i jobId e :
    find_result w = Ok record -> Reads record i -> Valid i ->
    update_result w AtStart = Ok tt ->
    Accepted jobId ->
    update_result w AtJobId = Throw e ->
    Path [Fetch; Start i true; Submission i; Persist jobId false] (Throw e)
| path_polled record i jobId t r :
    find_result w = Ok record -> Reads record i -> Valid i ->
    update_result w AtStart = Ok tt ->
    Accepted jobId ->
    update_result w AtJobId = Ok tt ->
    Loop jobId (ms (clock w LoopStart)) 0 false t r ->
    Path ([Fetch; Start i true; Submission i; Persist jobId true] ++ t)
         (finish r).

End Paths.

(** Counting the requests of one kind in a trace. *)
Definition is_poll (ev : Event) : bool :=
  match ev with Poll _ _ => true | _ => false end.

Definition polls (t : list Event) : nat := length (filter is_poll t).

Definition writes_video (ev : Event) : bool :=
  match ev with
  | Update _ _ _ fields _ => has_key "output_video" fields
  | _ => false
  end.

Definition video_writes (t : list Event) : nat := length (filter writes_video t).

(** The fields a write touches. *)
Definition only_keys (allowed : list string) (fields : list (string * value)) : bool :=
  forallb (fun kv => existsb (String.eqb (fst kv)) allowed) fields.

(** The acknowledgement sent before the [try] block. *)
Definition Acknowledge (recordId : value) : Event :=
  Respond 200 (VObj [ ("success", VBool true);
                      ("message", VStr "Animation generation started");
                      ("recordId", recordId) ]).

(** The run ends by writing [status = 'Failed'] and the message of [e]. *)
Definition ends_Failed (src : Source) (w : World) (recordId : value)
           (e : exn) (t : list Event) : Prop :=
  exists pre fields,
    t = pre ++ [Update AtFailed (table src) recordId fields
                       (is_ok (update_result w AtFailed))] /\
    assoc "status" fields = Some (VStr "Failed") /\
    assoc "error_log" fields =
      Some (VStr ("Error: " ^^ message e ^^ LF ^^ "Time: " ^^ iso (clock w Failed))).

(** Requests that only the poll loop issues. *)
Definition in_loop (ev : Event) : bool :=
  match ev with
  | Sleep _ | Poll _ _ | Download _ => true
  | Update (AtProgress _) _ _ _ _ | Update (AtCompleted _) _ _ _ _ => true
  | _ => false
  end.

(** The run of the loop inside a run of the handler. *)
Definition Polled (src : Source) (w : World) (recordId : value)
           (i : Inputs) (jobId : value) (tl : list Event) (rl : Res bool)
  : Prop :=
  truthy recordId = true /\
  (exists record, find_result w = Ok record /\ Reads src record i) /\
  Accepted w jobId /\
  Loop src w recordId jobId (ms (clock w LoopStart)) 0 false tl rl /\
  result (background src w recordId) = finish rl /\
  trace (generate_animation src w recordId) =
    [Acknowledge recordId; Fetch src recordId; Start src w recordId i true;
     Submission src i; Persist src w recordId jobId true] ++
    tl ++ failure_tail src w recordId (finish rl).

(** The write of a completed job: [output_video] and [status], and
    no check after check [k]. *)
Definition output_stored (src : Source) (w : World) (recordId : value)
           (k : nat) (url : string) (videoUrl : value) : Prop :=
  let run := trace (generate_animation src w recordId) in
  (exists site fields acc,
      In (Update site (table src) recordId fields acc) run /\
      assoc "output_video" fields = Some (output_video_of src videoUrl) /\
      assoc "status" fields = Some (VStr "Completed")) /\
  (forall pre post, run = pre ++ Poll k url :: post -> polls post = 0).

(** Every check answered [completed] with a non-empty list of outputs
    has its first output stored. *)
Definition stores_every_first_output (src : Source) (w : World) (recordId : value)
  : Prop :=
  forall k url res data videoUrl rest,
    In (Poll k url) (trace (generate_animation src w recordId)) ->
    poll_result w k = Ok res ->
    member res "data" = Ok data ->
    member data "status" = Ok (VStr "completed") ->
    member data "outputs" = Ok (VArr (videoUrl :: rest)) ->
    output_stored src w recordId k url videoUrl.

(** The world in which the progress write of attempt [k] is accepted,
    everything else being equal. *)
Definition accept_progress (w : World) (k : nat) : World :=
  {| find_result := find_result w;
     update_result := fun site =>
       match site with
       | AtProgress j => if (j =? k)%nat then Ok tt else update_result w site
       | _ => update_result w site
       end;
     submit_result := submit_result w;
     poll_result := poll_result w;
     download_result := download_result w;
     clock := clock w |}.

(** A rejected progress write changes neither the result of the run
    nor the number of checks it makes. *)
Definition progress_failure_is_harmless (src : Source) (w : World) (recordId : value)
  : Prop :=
  forall k fields e,
    In (Update (AtProgress k) (table src) recordId fields false)
       (trace (generate_animation src w recordId)) ->
    update_result w (AtProgress k) = Throw e ->
    result (background src w recordId) =
      result (background src (accept_progress w k) recordId) /\
    polls (trace (generate_animation src w recordId)) =
      polls (trace (generate_animation src (accept_progress w k) recordId)).

(** What a run that submitted went on to do. *)
Definition AfterSubmit (src : Source) (w : World) (recordId : value) (i : Inputs)
  : Prop :=
  let run := trace (generate_animation src w recordId) in
  let body := background src w recordId in
  (exists e, SubmitStops w e /\ result body = Throw e /\
             run = [Acknowledge recordId; Fetch src recordId;
                    Start src w recordId i true; Submission src i] ++
                   failure_tail src w recordId (Throw e)) \/
  (exists jobId e, Accepted w jobId /\ update_result w AtJobId = Throw e /\
                   result body = Throw e /\
                   run = [Acknowledge recordId; Fetch src recordId;
                          Start src w recordId i true; Submission src i;
                          Persist src w recordId jobId false] ++
                         failure_tail src w recordId (Throw e)) \/
  (exists jobId tl rl, Polled src w recordId i jobId tl rl).

(** ** Sample worlds *)

Module Samples.

Definition env0 : Env :=
  {| AIRTABLE_TABLE := None; WAVESPEED_BASE := None;
     WAVESPEED_SUBMIT_PATH := None; WAVESPEED_RESULT_PATH := None |}.

Definition rec_id : value := VStr "rec1".

Definition attachment (url : string) : value := VArr [VObj [("url", VStr url)]].

(** The record of the end-to-end scenario. *)
Definition record_seed42 : value :=
  VObj [("fields", VObj [ ("input_image", attachment "http://x/i.png");
                          ("input_video", attachment "http://x/v.mp4");
                          ("seed", VNum 42) ])].

Definition record_dance : value :=
  VObj [("fields", VObj [ ("input_image", attachment "http://x/i.png");
                          ("input_video", attachment "http://x/v.mp4");
                          ("prompt", VStr "dance");
                          ("seed", VNum 0) ])].

Definition record_no_video : value :=
  VObj [("fields", VObj [ ("input_image", attachment "http://x/i.png") ])].

(** Five seconds pass between two iterations. *)
Definition ticking : ClockSite -> Date :=
  fun site =>
    match site with
    | Tick n => {| ms := 5000 * Z.of_nat n; iso := "2024-01-01T00:00:00.000Z" |}
    | _ => {| ms := 0; iso := "2024-01-01T00:00:00.000Z" |}
    end.

Definition submitted (jobId : string) : Res (bool * value) :=
  Ok (true, VObj [("code", VNum 200); ("data", VObj [("id", VStr jobId)])]).

Definition completed_with (outputs : list value) : value :=
  VObj [("data", VObj [("status", VStr "completed"); ("outputs", VArr outputs)])].

Definition processing : value :=
  VObj [("data", VObj [("status", VStr "processing")])].

(** Everything succeeds; the first check finds the job completed. *)
Definition completes : World :=
  {| find_result := Ok record_seed42;
     update_result := fun _ => Ok tt;
     submit_result := submitted "job1";
     poll_result := fun _ => Ok (completed_with [VStr "http://out/video.mp4"]);
     download_result := fun _ => Ok tt;
     clock := ticking |}.

(** The same, but the video cannot be downloaded. *)
Definition download_fails : World :=
  {| find_result := Ok record_seed42;
     update_result := fun _ => Ok tt;
     submit_result := submitted "job1";
     poll_result := fun _ => Ok (completed_with [VStr "http://out/video.mp4"]);
     download_result := fun _ => Throw (Error "request to http://out/video.mp4 failed");
     clock := ticking |}.

(** The job completes with an empty string as its first output. *)
Definition empty_output : World :=
  {| find_result := Ok record_seed42;
     update_result := fun _ => Ok tt;
     submit_result := submitted "job1";
     poll_result := fun _ => Ok (completed_with [VStr ""]);
     download_result := fun _ => Ok tt;
     clock := ticking |}.

(** The job never leaves [processing]. *)
Definition never_ends : World :=
  {| find_result := Ok record_seed42;
     update_result := fun _ => Ok tt;
     submit_result := submitted "job1";
     poll_result := fun _ => Ok processing;
     download_result := fun _ => Ok tt;
     clock := ticking |}.

(** The store rejects the progress write of the first attempt. *)
Definition progress_rejected : World :=
  {| find_result := Ok record_seed42;
     update_result := fun site =>
       match site with
       | AtProgress 1 => Throw (Error "429 Too Many Requests")
       | _ => Ok tt
       end;
     submit_result := submitted "job1";
     poll_result := fun _ => Ok (completed_with [VStr "http://out/video.mp4"]);
     download_result := fun _ => Ok tt;
     clock := ticking |}.

(** The API refuses the submission. *)
Definition refused : World :=
  {| find_result := Ok record_dance;
     update_result := fun _ => Ok tt;
     submit_result :=
       Ok (false, VObj [("code", VNum 401); ("message", VStr "invalid api key")]);
     poll_result := fun _ => Ok processing;
     download_result := fun _ => Ok tt;
     clock := ticking |}.

(** The API accepts the submission but its answer carries no job id;
    the result endpoint then knows no such job. *)
Definition no_job_id : World :=
  {| find_result := Ok record_seed42;
     update_result := fun _ => Ok tt;
     submit_result := Ok (true, VObj [("code", VNum 200); ("data", VObj [])]);
     poll_result := fun _ =>
       Ok (VObj [("code", VNum 404); ("message", VStr "prediction not found")]);
     download_result := fun _ => Ok tt;
     clock := ticking |}.

(** The record has no input video. *)
Definition no_video : World :=
  {| find_result := Ok record_no_video;
     update_result := fun _ => Ok tt;
     submit_result := submitted "job1";
     poll_result := fun _ => Ok processing;
     download_result := fun _ => Ok tt;
     clock := ticking |}.

(** The requests of the end-to-end scenario. *)
Definition poll_url : string :=
  "https://api.wavespeed.ai/api/v3/predictions/job1/result".

Definition payload_seed42 : list (string * value) :=
  [ ("image", VStr "http://x/i.png"); ("video", VStr "http://x/v.mp4");
    ("mode", VStr "animate"); ("resolution", VStr "480p"); ("seed", VNum 42) ].

Definition payload_dance : list (string * value) :=
  [ ("image", VStr "http://x/i.png"); ("video", VStr "http://x/v.mp4");
    ("mode", VStr "animate"); ("resolution", VStr "480p"); ("seed", VNum (-1));
    ("prompt", VStr "dance") ].

Definition submit_url : string :=
  "https://api.wavespeed.ai/api/v3/wavespeed-ai/wan-2.2/animate".

End Samples.

(** The run on [Samples.no_job_id]: the job id written and polled is
    [undefined]. *)
Definition polls_undefined_job (src : Source) : Prop :=
  let run := trace (generate_animation src Samples.no_job_id Samples.rec_id) in
  In (Update AtJobId "animate_generation" Samples.rec_id
             (job_fields Samples.no_job_id VUndefined) true) run /\
  In (Poll 1 "https://api.wavespeed.ai/api/v3/predictions/undefined/result") run /\
  polls run = 120 /\
  result (background src Samples.no_job_id Samples.rec_id) =
    Throw (Error "Timeout: Animation generation took too long").

(** ** The health check and further measures of a trace *)

(** [app.get('/', ...)]: the service identity and the time; [part_000]
    also reports the table and the URLs it is configured with. *)
Definition health (src : Source) (now : Date) : M unit :=
  let identity := [ ("status", VStr "online");
                    ("service", VStr "Wan 2.2 Animate Generation");
                    ("timestamp", VStr (iso now)) ] in
  call (Respond 200
          (VObj match src with
                | server_js => identity
                | part_000 env =>
                    identity ++
                    [("config",
                      VObj [ ("table", VStr (env_or (AIRTABLE_TABLE env)
                                                    "animate_generation"));
                             ("submitUrl",
                              VStr (env_or (WAVESPEED_BASE env)
                                           "https://api.wavespeed.ai" ^^ "/" ^^
                                    env_or (WAVESPEED_SUBMIT_PATH env)
                                           "api/v3/wavespeed-ai/wan-2.2/animate"));
                             ("resultUrl",
                              VStr (env_or (WAVESPEED_BASE env)
                                           "https://api.wavespeed.ai" ^^
                                    env_or (WAVESPEED_RESULT_PATH env)
                                           "/api/v3/predictions")) ])]
                end))
       (Ok tt).

Definition is_respond (ev : Event) : bool :=
  match ev with Respond _ _ => true | _ => false end.

Definition is_find (ev : Event) : bool :=
  match ev with Find _ _ => true | _ => false end.

Definition is_submit (ev : Event) : bool :=
  match ev with Submit _ _ => true | _ => false end.

Definition is_sleep (ev : Event) : bool :=
  match ev with Sleep _ => true | _ => false end.

Definition is_download (ev : Event) : bool :=
  match ev with Download _ => true | _ => false end.

Definition count (f : Event -> bool) (t : list Event) : nat :=
  length (filter f t).

(** The time spent in [setTimeout], in milliseconds. *)
Definition total_sleep (t : list Event) : Z :=
  fold_right (fun ev acc => match ev with Sleep ms => (ms + acc)%Z | _ => acc end)
             0%Z t.

(** The sites of the writes of a trace, in order. *)
Definition sites (t : list Event) : list UpdateSite :=
  flat_map (fun ev => match ev with Update site _ _ _ _ => [site] | _ => [] end) t.

(** The place of a write in the life of a record: the start, the job
    id, then for each attempt its progress and its completion, and the
    failure last. *)
Definition site_rank (site : UpdateSite) : nat :=
  match site with
  | AtStart => 1
  | AtJobId => 2
  | AtProgress k => 2 * k + 1
  | AtCompleted k => 2 * k + 2
  | AtFailed => 2 * maxAttempts + 3
  end.

(** The table a store request names. *)
Definition table_of (ev : Event) : option string :=
  match ev with
  | Find tb _ | Update _ tb _ _ _ => Some tb
  | _ => None
  end.

(** The check of attempt [k] ends the run with the error [e]: the
    request failed, the body could not be read, the job has failed, or
    it is completed without a usable output. *)
Inductive CheckFails (w : World) (k : nat) : exn -> Prop :=
| fails_transport e :
    poll_result w k = Throw e -> CheckFails w k e
| fails_malformed res e :
    poll_result w k = Ok res ->
    data_field res "status" = Throw e -> CheckFails w k e
| fails_remote res status error :
    poll_result w k = Ok res ->
    data_field res "status" = Ok status ->
    is_string status "completed" = false ->
    is_string status "failed" = true ->
    data_field res "error" = Ok error ->
    CheckFails w k (generation_failed error)
| fails_no_outputs res status e :
    poll_result w k = Ok res ->
    data_field res "status" = Ok status ->
    is_string status "completed" = true ->
    first_output res = Throw e -> CheckFails w k e
| fails_no_url res status videoUrl :
    poll_result w k = Ok res ->
    data_field res "status" = Ok status ->
    is_string status "completed" = true ->
    first_output res = Ok videoUrl ->
    truthy videoUrl = false ->
    CheckFails w k (Error "No video URL in completed response").

(** A write that carries [job_id]. *)
Definition writes_job_id (ev : Event) : bool :=
  match ev with
  | Update _ _ _ fields _ => has_key "job_id" fields
  | _ => false
  end.

(** ** More sample worlds *)

Module Cases.

Import Samples.

Definition failed_with (error : list (string * value)) : value :=
  VObj [("data", VObj (("status", VStr "failed") :: error))].

(** The job is still processing at the first check and has failed at
    the second. *)
Definition generation_fails : World :=
  {| find_result := Ok record_seed42;
     update_result := fun _ => Ok tt;
     submit_result := submitted "job1";
     poll_result := fun k =>
       match k with
       | 1 => Ok processing
       | _ => Ok (failed_with [("error", VStr "content flagged")])
       end;
     download_result := fun _ => Ok tt;
     clock := ticking |}.

(** The second check cannot reach the API. *)
Definition poll_unreachable : World :=
  {| find_result := Ok record_seed42;
     update_result := fun _ => Ok tt;
     submit_result := submitted "job1";
     poll_result := fun k =>
       match k with
       | 1 => Ok processing
       | _ => Throw (Error "connect ECONNREFUSED")
       end;
     download_result := fun _ => Ok tt;
     clock := ticking |}.

(** The record does not exist. *)
Definition not_found : World :=
  {| find_result := Throw (Error "Record not found");
     update_result := fun _ => Ok tt;
     submit_result := submitted "job1";
     poll_result := fun _ => Ok processing;
     download_result := fun _ => Ok tt;
     clock := ticking |}.

(** The store rejects every write. *)
Definition read_only_store : World :=
  {| find_result := Ok record_seed42;
     update_result := fun _ => Throw (Error "403 Forbidden");
     submit_result := submitted "job1";
     poll_result := fun _ => Ok processing;
     download_result := fun _ => Ok tt;
     clock := ticking |}.

(** The store rejects the write of the job id. *)
Definition persist_rejected : World :=
  {| find_result := Ok record_seed42;
     update_result := fun site =>
       match site with
       | AtJobId => Throw (Error "422 Unknown field job_id")
       | _ => Ok tt
       end;
     submit_result := submitted "job1";
     poll_result := fun _ => Ok processing;
     download_result := fun _ => Ok tt;
     clock := ticking |}.

(** A record with its own mode and resolution. *)
Definition record_custom : value :=
  VObj [("fields", VObj [ ("input_image", attachment "http://x/i.png");
                          ("input_video", attachment "http://x/v.mp4");
                          ("mode", VStr "replace");
                          ("resolution", VStr "720p") ])].

Definition custom : World :=
  {| find_result := Ok record_custom;
     update_result := fun _ => Ok tt;
     submit_result := submitted "job1";
     poll_result := fun _ => Ok (completed_with [VStr "http://out/video.mp4"]);
     download_result := fun _ => Ok tt;
     clock := ticking |}.

Definition record_empty : value := VObj [("fields", VObj [])].

Definition no_inputs : World :=
  {| find_result := Ok record_empty;
     update_result := fun _ => Ok tt;
     submit_result := submitted "job1";
     poll_result := fun _ => Ok processing;
     download_result := fun _ => Ok tt;
     clock := ticking |}.

(** The job is found completed at the third check. *)
Definition completes_third : World :=
  {| find_result := Ok record_seed42;
     update_result := fun _ => Ok tt;
     submit_result := submitted "job1";
     poll_result := fun k =>
       match k with
       | 1 | 2 => Ok processing
       | _ => Ok (completed_with [VStr "http://out/video.mp4"])
       end;
     download_result := fun _ => Ok tt;
     clock := ticking |}.

(** The API answers the submission with code 200 and nothing else. *)
Definition no_data : World :=
  {| find_result := Ok record_seed42;
     update_result := fun _ => Ok tt;
     submit_result := Ok (true, VObj [("code", VNum 200)]);
     poll_result := fun _ => Ok processing;
     download_result := fun _ => Ok tt;
     clock := ticking |}.

(** A deployment of [part_000] on its own table and API host. *)
Definition staging : Env :=
  {| AIRTABLE_TABLE := Some "staging_jobs";
     WAVESPEED_BASE := Some "https://staging.example";
     WAVESPEED_SUBMIT_PATH := None;
     WAVESPEED_RESULT_PATH := Some "/v3/results" |}.

End Cases.

(** * Properties *)

(** Membership in a computed trace. *)
Ltac find_in := repeat (first [left; reflexivity | right]).

(** ** The run monad *)

Lemma trace_bind {A B} (m : M A) (f : A -> M B) :
  trace (bind m f) =
  trace m ++ match result m with Ok a => trace (f a) | Throw _ => [] end.
Proof.
  destruct m as [t [a | e]]; simpl.
  - destruct (f a); reflexivity.
  - now rewrite app_nil_r.
Qed.

Lemma result_bind {A B} (m : M A) (f : A -> M B) :
  result (bind m f) =
  match result m with Ok a => result (f a) | Throw e => Throw e end.
Proof.
  destruct m as [t [a | e]]; simpl; [destruct (f a) |]; reflexivity.
Qed.

Lemma M_eta {A} (m : M A) : m = (trace m, result m).
Proof. now destruct m. Qed.

Lemma trace_try_catch {A} (m : M A) (h : exn -> M A) :
  trace (try_catch m h) =
  trace m ++ match result m with Ok _ => [] | Throw e => trace (h e) end.
Proof.
  destruct m as [t [a | e]]; simpl.
  - now rewrite app_nil_r.
  - destruct (h e); reflexivity.
Qed.

(** ** The loop body and the loop follow their paths *)

Section PathsHold.

Variable src : Source.
Variable w : World.
Variable recordId : value.

Lemma download_cases k u :
  (exists e, src = server_js /\ download_result w k = Throw e /\
             download src w k u = ([Download u], Throw e)) \/
  result (download src w k u) = Ok tt.
Proof.
  unfold download. destruct src; [| now right].
  destruct (download_result w k) as [x | e] eqn:D; [destruct x |].
  - now right.
  - left. exists e. unfold call. auto.
Qed.

Lemma poll_once_Iter jobId startTime k :
  Iter src w recordId jobId startTime k
       (trace (poll_once src w recordId jobId startTime k))
       (result (poll_once src w recordId jobId startTime k)).
Proof.
  unfold poll_once, update, call, lift, throw, ret.
  destruct (update_result w (AtProgress k)) as [x | e] eqn:U; [destruct x |]; cbn;
    [| now apply iter_progress_rejected].
  destruct (poll_result w k) as [res | e] eqn:P; cbn;
    [| now apply iter_transport].
  destruct (data_field res "status") as [status | e] eqn:S; cbn;
    [| now apply iter_malformed with res].
  destruct (is_string status "completed") eqn:C.
  - destruct (first_output res) as [u | e] eqn:O; cbn;
      [| now apply iter_no_outputs with res status].
    destruct (truthy u) eqn:T; cbn;
      [| now apply iter_no_url with res status u].
    destruct (download_cases k u) as [(e & Hs & D & E) | D].
    + rewrite E. cbn. now apply iter_download_fails with res status.
    + rewrite (M_eta (download src w k u)), D. cbn.
      destruct (update_result w (AtCompleted k)) as [x | e] eqn:V; [destruct x |]; cbn.
      * now apply (iter_completed src w recordId jobId startTime k res status u).
      * now apply (iter_write_rejected src w recordId jobId startTime k res status u).
  - destruct (is_string status "failed") eqn:F; cbn;
      [| now apply iter_pending with res status].
    destruct (data_field res "error") as [err | e] eqn:E; cbn.
    + now apply iter_failed with res status.
    + (* [result.data?.error] cannot throw once [result.data?.status] was read *)
      exfalso. unfold data_field in S, E.
      destruct (member res "data") as [d | ?]; [| discriminate].
      unfold opt_member in *. destruct (nullish d); [discriminate |].
      destruct d; simpl in *; discriminate.
Qed.

Lemma while_polling_step jobId startTime a c :
  while_polling src w recordId jobId startTime a c =
  if (a <? maxAttempts)%nat && negb c
  then completed' <- poll_once src w recordId jobId startTime (S a) ;;
       while_polling src w recordId jobId startTime (S a) completed'
  else ret c.
Proof.
  funelim (while_polling src w recordId jobId startTime a c);
    match goal with H : _ && _ = _ |- _ => rewrite H end; reflexivity.
Qed.

Lemma while_polling_Loop jobId startTime a c :
  Loop src w recordId jobId startTime a c
       (trace (while_polling src w recordId jobId startTime a c))
       (result (while_polling src w recordId jobId startTime a c)).
Proof.
  remember (maxAttempts - a) as n eqn:Hn.
  revert a c Hn. induction n as [n IH] using lt_wf_ind. intros a c Hn.
  rewrite while_polling_step.
  destruct ((a <? maxAttempts)%nat && negb c) eqn:G.
  - pose proof (poll_once_Iter jobId startTime (S a)) as It.
    rewrite trace_bind, result_bind.
    destruct (result (poll_once src w recordId jobId startTime (S a)))
      as [c' | e] eqn:R.
    + apply loop_next with c'; [exact G | exact It |].
      apply andb_prop in G. destruct G as [G _]. apply Nat.ltb_lt in G.
      apply (IH (maxAttempts - S a)); [lia | reflexivity].
    + rewrite app_nil_r. now apply loop_throw.
  - now apply loop_exit.
Qed.

Lemma background_Path :
  Path src w recordId (trace (background src w recordId))
       (result (background src w recordId)).
Proof.
  unfold background, find, update, call, lift, throw, ret.
  destruct (find_result w) as [record | e] eqn:F; cbn;
    [| now apply path_no_inputs, no_record].
  destruct (read_inputs src record) as [i | e] eqn:R.
  2:{ assert (N : NoInputs src w e) by now apply no_fields with record.
      unfold read_inputs in R.
      repeat match type of R with
             | match ?r with Ok _ => _ | Throw _ => _ end = _ =>
                 destruct r; cbn; [| injection R as <-; now apply path_no_inputs]
             end.
      discriminate. }
  assert (R' := R). unfold read_inputs in R'.
  repeat match type of R' with
         | match ?r with Ok _ => _ | Throw _ => _ end = _ =>
             destruct r; cbn; [| discriminate]
         end.
  injection R' as <-.
  match goal with
  | |- context [truthy ?a] => destruct (truthy a) eqn:TI
  end; cbn.
  2:{ eapply path_no_inputs, no_image; eauto. }
  match goal with
  | |- context [negb (truthy ?a)] => destruct (truthy a) eqn:TV
  end; cbn.
  2:{ eapply path_no_inputs, no_video; eauto. }
  match type of R with _ = Ok ?i0 => set (i := i0) in * end.
  assert (Vi : Valid i) by now split.
  destruct (update_result w AtStart) as [x | e] eqn:U; [destruct x |]; cbn.
  2:{ now apply (path_start_rejected src w recordId record i e). }
  destruct (submit_result w) as [[ok body] | e] eqn:S; cbn.
  2:{ apply (path_submit_stops src w recordId record i e); auto.
      now apply stops_transport. }
  destruct (submit_rejected ok body) as [rej | e] eqn:J; cbn.
  2:{ apply (path_submit_stops src w recordId record i e); auto.
      now apply stops_check_throws with ok body. }
  destruct rej.
  { destruct (api_error body) as [e | e] eqn:A; cbn.
    - apply (path_submit_stops src w recordId record i e); auto.
      now apply stops_rejected with ok body.
    - apply (path_submit_stops src w recordId record i e); auto.
      now apply stops_message_throws with ok body. }
  destruct (job_id_of body) as [jobId | e] eqn:I; cbn.
  2:{ apply (path_submit_stops src w recordId record i e); auto.
      now apply stops_no_data with ok body. }
  assert (Acc : Accepted w jobId) by (exists ok, body; auto).
  destruct (update_result w AtJobId) as [x | e] eqn:V; [destruct x |]; cbn.
  2:{ now apply (path_persist_rejected src w recordId record i jobId e). }
  pose proof (while_polling_Loop jobId (ms (clock w LoopStart)) 0 false) as L.
  rewrite (M_eta (while_polling _ _ _ _ _ _ _)).
  set (t := trace (while_polling src w recordId jobId (ms (clock w LoopStart)) 0 false)) in *.
  set (r := result (while_polling src w recordId jobId (ms (clock w LoopStart)) 0 false)) in *.
  assert (P : Path src w recordId
                ([Fetch src recordId; Start src w recordId i true;
                  Submission src i; Persist src w recordId jobId true] ++ t)
                (finish r)).
  { now apply (path_polled src w recordId record i jobId t r). }
  destruct r as [[|] | e]; cbn in *; try rewrite app_nil_r; exact P.
Qed.

(** The whole handler: the acknowledgement, the [try] block, and the
    write of the [catch] block when the block threw. *)
Lemma handler_trace :
  truthy recordId = true ->
  trace (generate_animation src w recordId) =
  Acknowledge recordId :: trace (background src w recordId) ++
  failure_tail src w recordId (result (background src w recordId)).
Proof.
  intros T. unfold generate_animation. rewrite T. cbn [negb].
  rewrite trace_bind. cbn [call trace result fst snd app].
  rewrite trace_try_catch. unfold Acknowledge. f_equal. f_equal.
  destruct (result (background src w recordId)) as [x | e]; [reflexivity |].
  unfold on_error, update, call, failure_tail.
  destruct (update_result w AtFailed) as [x | e']; reflexivity.
Qed.

Lemma handler_no_record :
  truthy recordId = false ->
  generate_animation src w recordId =
  ([Respond 400 (VObj [("error", VStr "recordId is required")])], Ok tt).
Proof. intros T. unfold generate_animation. now rewrite T. Qed.

End PathsHold.

(** ** Lists cut at an element *)

Lemma app_cut {A} (l1 l2 pre post : list A) (x : A) :
  l1 ++ l2 = pre ++ x :: post ->
  (exists post1, l1 = pre ++ x :: post1 /\ post = post1 ++ l2) \/
  (exists pre2, pre = l1 ++ pre2 /\ l2 = pre2 ++ x :: post).
Proof.
  revert pre. induction l1 as [| a l1 IH]; intros pre H.
  - right. exists pre. auto.
  - destruct pre as [| b pre]; simpl in H.
    + injection H as -> <-. left. exists l1. auto.
    + injection H as -> H. destruct (IH pre H) as [(p & -> & ->) | (p & -> & ->)].
      * left. exists p. auto.
      * right. exists p. auto.
Qed.

Lemma polls_app t1 t2 : polls (t1 ++ t2) = polls t1 + polls t2.
Proof. unfold polls. now rewrite filter_app, length_app. Qed.

Lemma video_writes_app t1 t2 :
  video_writes (t1 ++ t2) = video_writes t1 + video_writes t2.
Proof. unfold video_writes. now rewrite filter_app, length_app. Qed.

Lemma polls_some t : 0 < polls t -> exists k url, In (Poll k url) t.
Proof.
  induction t as [| ev t IH]; unfold polls; simpl; [lia |].
  destruct ev; simpl; intros H;
    try (destruct (IH H) as (k & u & Hin); exists k, u; now right).
  exists attempt, url. now left.
Qed.

Lemma polls_none t : (forall k url, ~ In (Poll k url) t) -> polls t = 0.
Proof.
  induction t as [| ev t IH]; intros H; [reflexivity |].
  unfold polls in *. simpl. destruct ev; simpl;
    try (apply IH; intros k u Hin; apply (H k u); now right).
  exfalso. apply (H attempt url). now left.
Qed.

(** ** One iteration *)

Section Iteration.

Variable src : Source.
Variable w : World.
Variable recordId : value.
Variable jobId : value.
Variable startTime : Z.

#[local] Abbreviation Iter := (Iter src w recordId jobId startTime).
#[local] Abbreviation Progress := (Progress src w recordId jobId startTime).
#[local] Abbreviation Check := (Check src jobId).
#[local] Abbreviation Completion := (Completion src w recordId startTime).

Lemma download_trace k u :
  trace (download src w k u) = [] \/
  (src = server_js /\ trace (download src w k u) = [Download u]).
Proof. unfold download. destruct src; [right | left]; auto. Qed.

(** Every request of an iteration is one of the five of the loop body. *)
Lemma Iter_In k t r ev :
  Iter k t r -> In ev t -> LoopRequest src w recordId jobId startTime k ev.
Proof.
  intros It Hin. unfold LoopRequest.
  assert (Hdl : forall u, In ev (trace (download src w k u)) ->
                          ev = Download u /\ src = server_js).
  { intros u Hu. destruct (download_trace k u) as [E | [E1 E]];
      rewrite E in Hu; simpl in Hu; intuition. }
  inversion It; subst; simpl in Hin;
    repeat match goal with
           | H : update_result w _ = _ |- _ => rewrite H
           end; simpl;
    try (intuition (subst; auto); fail).
  - destruct Hin as [<- | [<- | [<- | [<- | []]]]]; auto.
    right; right; right. exists videoUrl. split; [| now left; auto].
    exists res, status. auto.
  - destruct Hin as [<- | [<- | [<- | Hin]]]; auto.
    right; right; right. exists videoUrl. split; [exists res, status; auto |].
    apply in_app_or in Hin. destruct Hin as [Hin | [<- | []]]; auto.
  - destruct Hin as [<- | [<- | [<- | Hin]]]; auto.
    right; right; right. exists videoUrl. split; [exists res, status; auto |].
    apply in_app_or in Hin. destruct Hin as [Hin | [<- | []]]; auto.
Qed.

Lemma download_polls k u : polls (trace (download src w k u)) = 0.
Proof. destruct (download_trace k u) as [E | [_ E]]; now rewrite E. Qed.

Lemma download_cut k u tl pre j url post :
  trace (download src w k u) ++ tl = pre ++ Poll j url :: post ->
  exists pre2, pre = trace (download src w k u) ++ pre2 /\
               tl = pre2 ++ Poll j url :: post.
Proof.
  intros H. apply app_cut in H. destruct H as [(p & E & _) | H]; [| exact H].
  exfalso. destruct (download_trace k u) as [E' | [_ E']]; rewrite E' in E.
  - now destruct pre.
  - destruct pre as [| ? [| ? ?]]; discriminate.
Qed.

(** An iteration checks at most once, third, after its sleep and its
    progress write. *)
Lemma Iter_cut k t r pre j url post :
  Iter k t r -> t = pre ++ Poll j url :: post ->
  j = k /\ url = resultUrl src jobId /\
  pre = [Sleep 5000; Progress k true] /\
  polls post = 0.
Proof.
  intros It H.
  inversion It; subst;
    repeat match goal with
           | H : [_; _; _] ++ _ = _ |- _ => simpl in H
           | H : _ :: _ = ?p ++ _ :: _ |- _ =>
               destruct p; simpl in H; [| injection H as <- H]
           | H : [] = ?p ++ _ :: _ |- _ => now destruct p
           | H : (_ ++ _) ++ _ = _ |- _ => rewrite <- app_assoc in H; simpl in H
           end;
    try discriminate;
    try (match goal with H : _ = Poll _ _ :: _ |- _ => injection H as <- <- <- end;
         repeat split; auto;
         rewrite ?polls_app, ?download_polls; reflexivity).
  all: match goal with
       | H : trace (download _ _ _ _) ++ _ = _ |- _ =>
           apply download_cut in H; destruct H as (p2 & _ & H);
           destruct p2 as [| ? [| ? ?]]; discriminate
       end.
Qed.

Lemma Iter_polls k t r : Iter k t r -> polls t <= 1.
Proof.
  inversion 1; subst; rewrite ?polls_app, ?download_polls;
    unfold polls; simpl; lia.
Qed.

(** An iteration that leaves [completed] false made its check and got
    a status that is neither terminal one. *)
Lemma Iter_pending k t :
  Iter k t (Ok false) ->
  t = [Sleep 5000; Progress k true; Check k] /\
  update_result w (AtProgress k) = Ok tt /\
  exists res status,
    poll_result w k = Ok res /\ data_field res "status" = Ok status /\
    is_string status "completed" = false /\ is_string status "failed" = false.
Proof. inversion 1; subst. repeat split; auto. exists res, status. auto. Qed.

(** A completed job with a usable output is written to the record,
    provided the download (if any) succeeds. *)
Lemma Iter_succeeds k t r u :
  Iter k t r -> In (Check k) t ->
  Succeeds w k u -> result (download src w k u) = Ok tt ->
  In (Completion k u (is_ok (update_result w (AtCompleted k)))) t /\
  r <> Ok false.
Proof.
  intros It Hin (res & status & P & S & C & O & T) D.
  inversion It; subst; try congruence.
  - simpl in Hin. destruct Hin as [Hin | [Hin | []]]; discriminate.
  - exfalso. unfold download, call in D. simpl in D. congruence.
  - assert (videoUrl = u) as -> by congruence.
    split; [| discriminate].
    match goal with H : update_result w (AtCompleted k) = _ |- _ => rewrite H end.
    apply in_or_app. right. apply in_or_app. right. now left.
  - assert (videoUrl = u) as -> by congruence.
    split; [| discriminate].
    match goal with H : update_result w (AtCompleted k) = _ |- _ => rewrite H end.
    apply in_or_app. right. apply in_or_app. right. now left.
Qed.

(** A rejected progress write ends the iteration on the spot. *)
Lemma Iter_progress_rejected k t r e :
  Iter k t r -> update_result w (AtProgress k) = Throw e ->
  t = [Sleep 5000; Progress k false] /\ r = Throw e.
Proof. intros It U. inversion It; subst; try congruence. split; congruence. Qed.

Lemma Iter_nonterminal k t r :
  Iter k t r -> In (Check k) t -> nonterminal (poll_result w k) ->
  r = Ok false.
Proof.
  intros It Hin (res & status & P & S & C & F).
  inversion It; subst; try congruence.
  simpl in Hin. destruct Hin as [Hin | [Hin | []]]; discriminate.
Qed.

Lemma Iter_video_writes k t r :
  Iter k t r -> video_writes t <= 1 /\ (r = Ok false -> video_writes t = 0).
Proof.
  assert (D : forall u, video_writes (trace (download src w k u)) = 0).
  { intros u. destruct (download_trace k u) as [E | [_ E]]; now rewrite E. }
  inversion 1; subst; rewrite ?video_writes_app, ?D;
    unfold video_writes; simpl; split; (lia || discriminate || reflexivity).
Qed.

End Iteration.

(** ** The loop *)

Section Looping.

Variable src : Source.
Variable w : World.
Variable recordId : value.
Variable jobId : value.
Variable startTime : Z.

#[local] Abbreviation Iter := (Iter src w recordId jobId startTime).
#[local] Abbreviation Loop := (Loop src w recordId jobId startTime).
#[local] Abbreviation LoopRequest := (LoopRequest src w recordId jobId startTime).
#[local] Abbreviation Progress := (Progress src w recordId jobId startTime).
#[local] Abbreviation Check := (Check src jobId).
#[local] Abbreviation Completion := (Completion src w recordId startTime).

Lemma loop_guard a c :
  (a <? maxAttempts)%nat && negb c = true -> a < maxAttempts /\ c = false.
Proof.
  intros G. apply andb_prop in G. destruct G as [G1 G2].
  apply Nat.ltb_lt in G1. now destruct c.
Qed.

(** Once [completed] is set the loop is over. *)
Lemma Loop_completed a t r : Loop a true t r -> t = [] /\ r = Ok true.
Proof.
  inversion 1; subst; auto;
    match goal with G : _ && _ = true |- _ =>
      apply loop_guard in G; destruct G; discriminate end.
Qed.

(** The requests of the loop are those of the attempts after [a]. *)
Lemma Loop_In a c t r ev :
  Loop a c t r -> In ev t ->
  exists k, a < k <= maxAttempts /\ LoopRequest k ev.
Proof.
  induction 1 as [a c G | a c t e G It | a c t c' t' r G It L IH];
    intros Hin.
  - destruct Hin.
  - apply loop_guard in G. exists (S a). split; [lia |].
    now apply Iter_In with t (Throw e).
  - apply loop_guard in G. apply in_app_or in Hin. destruct Hin as [Hin | Hin].
    + exists (S a). split; [lia |]. now apply Iter_In with t (Ok c').
    + destruct (IH Hin) as (k & Hk & R). exists k. split; [lia | exact R].
Qed.

Lemma LoopRequest_poll k j url :
  LoopRequest k (Poll j url) ->
  j = k /\ url = resultUrl src jobId /\ update_result w (AtProgress k) = Ok tt.
Proof.
  intros [H | [H | [[H U] | (u & _ & [[H _] | H])]]]; try discriminate.
  injection H as -> ->. auto.
Qed.

Lemma LoopRequest_update k site tb rid fields acc :
  LoopRequest k (Update site tb rid fields acc) ->
  tb = table src /\ rid = recordId /\ acc = is_ok (update_result w site) /\
  ((site = AtProgress k /\
    fields = progress_fields jobId (elapsed_at w startTime k) k) \/
   (exists u, Succeeds w k u /\ site = AtCompleted k /\
              fields = completed_fields src w u (elapsed_at w startTime k) k)).
Proof.
  intros [H | [H | [[H U] | (u & S & [[H _] | H])]]]; try discriminate.
  - injection H as -> -> -> -> ->. repeat split; auto.
  - injection H as -> -> -> -> ->. repeat split; auto. right. exists u. auto.
Qed.

Lemma Loop_poll_label a c t r j url :
  Loop a c t r -> In (Poll j url) t ->
  a < j <= maxAttempts /\ url = resultUrl src jobId.
Proof.
  intros L Hin. destruct (Loop_In _ _ _ _ _ L Hin) as (k & Hk & R).
  apply LoopRequest_poll in R. destruct R as (-> & -> & _). auto.
Qed.

(** At most one check per remaining attempt. *)
Lemma Loop_polls a c t r : Loop a c t r -> polls t <= maxAttempts - a.
Proof.
  induction 1 as [a c G | a c t e G It | a c t c' t' r G It L IH].
  - unfold polls. simpl. lia.
  - apply loop_guard in G. apply Iter_polls in It. lia.
  - apply loop_guard in G. apply Iter_polls in It. rewrite polls_app. lia.
Qed.

(** Every check comes right after the sleep and the progress write of
    its own attempt; the checks before it are those of the earlier
    attempts, the checks after it those of later ones. *)
Lemma Loop_cut a c t r pre j url post :
  Loop a c t r -> t = pre ++ Poll j url :: post ->
  a < j <= maxAttempts /\
  (exists pre', pre = pre' ++ [Sleep 5000; Progress j true] /\
                polls pre' = j - S a) /\
  (forall i u, In (Poll i u) post -> j < i).
Proof.
  intros L. revert pre post.
  induction L as [a c G | a c t e G It | a c t c' t' r G It L IH];
    intros pre post H.
  - now destruct pre.
  - apply loop_guard in G.
    destruct (Iter_cut _ _ _ _ _ _ _ _ _ _ _ _ It H) as (-> & _ & -> & Z).
    split; [lia |]. split.
    + exists []. split; [reflexivity |]. unfold polls. simpl. lia.
    + intros i u Hin. exfalso. unfold polls in Z.
      apply (in_split (Poll i u)) in Hin. destruct Hin as (l1 & l2 & ->).
      rewrite filter_app, length_app in Z. simpl in Z. lia.
  - apply loop_guard in G. apply app_cut in H.
    destruct H as [(post1 & E & ->) | (pre2 & -> & E)].
    + destruct (Iter_cut _ _ _ _ _ _ _ _ _ _ _ _ It E) as (-> & _ & -> & Z).
      split; [lia |]. split.
      * exists []. split; [reflexivity |]. unfold polls. simpl. lia.
      * intros i u Hin. apply in_app_or in Hin. destruct Hin as [Hin | Hin].
        -- exfalso. unfold polls in Z.
           apply (in_split (Poll i u)) in Hin. destruct Hin as (l1 & l2 & ->).
           rewrite filter_app, length_app in Z. simpl in Z. lia.
        -- apply (Loop_poll_label _ _ _ _ _ _ L) in Hin. lia.
    + destruct (IH _ _ E) as (Hj & (pre' & -> & Hp) & Hpost).
      split; [lia |]. split; [| exact Hpost].
      exists (t ++ pre'). split; [now rewrite app_assoc |].
      rewrite polls_app, Hp.
      (* the iteration before went on, so it made its check *)
      destruct c'.
      * apply Loop_completed in L. destruct L as [-> _]. now destruct pre'.
      * apply Iter_pending in It. destruct It as (-> & _). unfold polls. simpl. lia.
Qed.

(** If every remaining attempt made its check and none saw a terminal
    status, the loop ends with [completed] still false. *)
Lemma Loop_exhausted a t r :
  Loop a false t r -> polls t = maxAttempts - a ->
  (forall k url, In (Poll k url) t -> nonterminal (poll_result w k)) ->
  r = Ok false.
Proof.
  remember false as c eqn:Hc. intros L. revert Hc.
  induction L as [a c G | a c t e G It | a c t c' t' r G It L IH];
    intros -> Hn Hnt.
  - reflexivity.
  - exfalso. apply loop_guard in G.
    destruct (polls_some t) as (k & url & Hin); [lia |].
    pose proof (Iter_In _ _ _ _ _ _ _ _ _ It Hin) as R.
    apply LoopRequest_poll in R. destruct R as (-> & -> & _).
    pose proof (Iter_nonterminal _ _ _ _ _ _ _ _ It Hin (Hnt _ _ Hin)).
    discriminate.
  - apply loop_guard in G. rewrite polls_app in Hn.
    pose proof (Iter_polls _ _ _ _ _ _ _ _ It) as B1.
    pose proof (Loop_polls _ _ _ _ L) as B2.
    destruct (polls_some t) as (k & url & Hin); [lia |].
    pose proof (Iter_In _ _ _ _ _ _ _ _ _ It Hin) as R.
    apply LoopRequest_poll in R. destruct R as (-> & -> & _).
    assert (Hc : Ok c' = Ok false).
    { apply (Iter_nonterminal _ _ _ _ _ _ _ _ It Hin).
      apply (Hnt (S a) (resultUrl src jobId)). apply in_or_app. now left. }
    injection Hc as ->.
    apply IH; [reflexivity | lia |].
    intros k url Hk. apply (Hnt k url). apply in_or_app. now right.
Qed.

(** A completed job seen by check [k] is written to the record, and
    [k] is the last check. *)
Lemma Loop_succeeds a c t r k url u :
  Loop a c t r -> In (Poll k url) t ->
  Succeeds w k u -> result (download src w k u) = Ok tt ->
  In (Completion k u (is_ok (update_result w (AtCompleted k)))) t /\
  (forall j url', In (Poll j url') t -> j <= k).
Proof.
  intros L Hin S D.
  induction L as [a c G | a c t e G It | a c t c' t' r G It L IH].
  - destruct Hin.
  - pose proof (Iter_In _ _ _ _ _ _ _ _ _ It Hin) as R.
    apply LoopRequest_poll in R. destruct R as (-> & -> & _).
    split; [now apply (Iter_succeeds _ _ _ _ _ _ _ _ _ It) |].
    intros j url' Hj.
    pose proof (Iter_In _ _ _ _ _ _ _ _ _ It Hj) as R.
    apply LoopRequest_poll in R. destruct R as (-> & _). lia.
  - apply in_app_or in Hin. destruct Hin as [Hin | Hin].
    + pose proof (Iter_In _ _ _ _ _ _ _ _ _ It Hin) as R.
      apply LoopRequest_poll in R. destruct R as (-> & -> & _).
      destruct (Iter_succeeds _ _ _ _ _ _ _ _ _ It Hin S D) as [Hc Hr].
      destruct c'; [| congruence].
      apply Loop_completed in L. destruct L as [-> _]. rewrite app_nil_r.
      split; [exact Hc |]. intros j url' Hj.
      pose proof (Iter_In _ _ _ _ _ _ _ _ _ It Hj) as R.
      apply LoopRequest_poll in R. destruct R as (-> & _). lia.
    + destruct (IH Hin) as [Hc Hl]. split; [apply in_or_app; now right |].
      intros j url' Hj. apply in_app_or in Hj. destruct Hj as [Hj | Hj].
      * pose proof (Iter_In _ _ _ _ _ _ _ _ _ It Hj) as R.
        apply LoopRequest_poll in R. destruct R as (-> & _).
        apply (Loop_poll_label _ _ _ _ _ _ L) in Hin. lia.
      * exact (Hl j url' Hj).
Qed.

(** A rejected progress write of attempt [k] ends the loop with the
    store's error, before the check of that attempt: the checks made
    are those of the [k - 1] earlier attempts. *)
Lemma Loop_progress_rejected a c t r k tb rid fields acc e :
  Loop a c t r -> In (Update (AtProgress k) tb rid fields acc) t ->
  update_result w (AtProgress k) = Throw e ->
  r = Throw e /\ polls t = k - S a /\
  (forall j url, In (Poll j url) t -> j < k).
Proof.
  intros L Hin U.
  assert (Site : forall j t r, Iter j t r ->
            In (Update (AtProgress k) tb rid fields acc) t -> j = k).
  { intros j t0 r0 It H. pose proof (Iter_In _ _ _ _ _ _ _ _ _ It H) as R.
    apply LoopRequest_update in R.
    destruct R as (_ & _ & _ & [[E _] | (u & _ & E & _)]); congruence. }
  induction L as [a c G | a c t e' G It | a c t c' t' r G It L IH].
  - destruct Hin.
  - pose proof (Site _ _ _ It Hin) as <-.
    destruct (Iter_progress_rejected _ _ _ _ _ _ _ _ _ It U) as [-> E].
    split; [congruence |]. split; [unfold polls; simpl; lia |].
    intros j url [H | [H | []]]; discriminate.
  - apply in_app_or in Hin. destruct Hin as [Hin | Hin].
    + pose proof (Site _ _ _ It Hin) as <-.
      destruct (Iter_progress_rejected _ _ _ _ _ _ _ _ _ It U) as [_ E].
      discriminate.
    + destruct (IH Hin) as (-> & Hp & Hl).
      assert (Hk : S a < k).
      { destruct (Loop_In _ _ _ _ _ L Hin) as (k' & Hk & R).
        apply LoopRequest_update in R.
        destruct R as (_ & _ & _ & [[E _] | (u & _ & E & _)]);
          [injection E as -> | discriminate]. lia. }
      split; [reflexivity |]. split.
      * rewrite polls_app, Hp. destruct c'.
        -- apply Loop_completed in L. destruct L as [-> _]. destruct Hin.
        -- apply Iter_pending in It. destruct It as (-> & _).
           unfold polls at 1. simpl. lia.
      * intros j url Hj. apply in_app_or in Hj. destruct Hj as [Hj | Hj].
        -- pose proof (Iter_In _ _ _ _ _ _ _ _ _ It Hj) as R.
           apply LoopRequest_poll in R. destruct R as (-> & _). lia.
        -- exact (Hl j url Hj).
Qed.

(** The loop writes [output_video] at most once. *)
Lemma Loop_video_writes a c t r : Loop a c t r -> video_writes t <= 1.
Proof.
  induction 1 as [a c G | a c t e G It | a c t c' t' r G It L IH].
  - unfold video_writes. simpl. lia.
  - now apply Iter_video_writes in It.
  - rewrite video_writes_app. apply Iter_video_writes in It.
    destruct It as [B Z]. destruct c'.
    + apply Loop_completed in L. destruct L as [-> _].
      unfold video_writes at 2. simpl. lia.
    + rewrite (Z eq_refl). simpl. exact IH.
Qed.

End Looping.

(** ** Runs *)

Section Runs.

Variable src : Source.
Variable w : World.
Variable recordId : value.

#[local] Abbreviation run := (trace (generate_animation src w recordId)).
#[local] Abbreviation body := (background src w recordId).

Lemma run_inv :
  (truthy recordId = false /\
   run = [Respond 400 (VObj [("error", VStr "recordId is required")])]) \/
  (truthy recordId = true /\
   exists tb rb, result body = rb /\
                 Path src w recordId tb rb /\
                 run = Acknowledge recordId :: tb ++ failure_tail src w recordId rb).
Proof.
  destruct (truthy recordId) eqn:T.
  - right. split; [reflexivity |].
    exists (trace body), (result body). repeat split.
    + apply background_Path.
    + now apply handler_trace.
  - left. split; [reflexivity |]. now rewrite handler_no_record.
Qed.

Lemma failure_tail_In ev r :
  In ev (failure_tail src w recordId r) ->
  exists e, r = Throw e /\
            ev = Update AtFailed (table src) recordId (failed_fields w e)
                        (is_ok (update_result w AtFailed)).
Proof.
  destruct r as [x | e]; simpl; [tauto |].
  intros [<- | []]. eauto.
Qed.

Lemma run_ends_Failed e :
  truthy recordId = true -> result body = Throw e ->
  ends_Failed src w recordId e run.
Proof.
  intros T R. rewrite (handler_trace _ _ _ T), R. simpl.
  exists (Acknowledge recordId :: trace body), (failed_fields w e).
  repeat split.
Qed.

(** A request of the loop is only seen in a run that entered it. *)
Lemma run_polled ev :
  In ev run -> in_loop ev = true ->
  exists i jobId tl rl, Polled src w recordId i jobId tl rl /\ In ev tl.
Proof.
  intros Hin Hl.
  destruct run_inv as [[T E] | (T & tb & rb & Erb & P & E)];
    rewrite E in Hin.
  - destruct Hin as [<- | []]. discriminate.
  - destruct Hin as [<- | Hin]; [discriminate |].
    apply in_app_or in Hin. destruct Hin as [Hin | Hin].
    2:{ apply failure_tail_In in Hin. destruct Hin as (e & _ & ->). discriminate. }
    destruct P as [e N | record i e F R V U | record i e F R V U S
                   | record i jobId e F R V U A J
                   | record i jobId tl rl F R V U A J L];
      try (simpl in Hin; intuition (subst; discriminate)).
    simpl in Hin. destruct Hin as [<- | [<- | [<- | [<- | Hin]]]];
      try discriminate.
    exists i, jobId, tl, rl. split; [| exact Hin].
    unfold Polled. repeat split; auto.
    exists record. auto.
Qed.

(** Cutting a run at a check cuts it inside the loop. *)
Lemma Polled_cut i jobId tl rl pre k url post :
  Polled src w recordId i jobId tl rl -> run = pre ++ Poll k url :: post ->
  exists pre2 post1,
    pre = [Acknowledge recordId; Fetch src recordId; Start src w recordId i true;
           Submission src i; Persist src w recordId jobId true] ++ pre2 /\
    tl = pre2 ++ Poll k url :: post1 /\
    post = post1 ++ failure_tail src w recordId (finish rl).
Proof.
  intros (_ & _ & _ & _ & _ & E) H. rewrite E in H.
  apply app_cut in H. destruct H as [(p1 & H & _) | (pre2 & -> & H)].
  - exfalso.
    repeat (destruct pre as [| ? pre]; simpl in H;
            [discriminate | injection H as <- H]).
    now destruct pre.
  - apply app_cut in H. destruct H as [(post1 & -> & ->) | (pre3 & _ & H)].
    + exists pre2, post1. auto.
    + exfalso. destruct (finish rl) as [x | e]; simpl in H.
      * now destruct pre3.
      * destruct pre3 as [| ? [| ? ?]]; discriminate.
Qed.

Lemma failure_tail_polls r : polls (failure_tail src w recordId r) = 0.
Proof. now destruct r. Qed.

Lemma Polled_polls i jobId tl rl :
  Polled src w recordId i jobId tl rl -> polls run = polls tl.
Proof.
  intros (_ & _ & _ & _ & _ & E). rewrite E.
  rewrite !polls_app, failure_tail_polls. unfold polls at 1. simpl. lia.
Qed.

Lemma Polled_In i jobId tl rl ev :
  Polled src w recordId i jobId tl rl -> In ev tl -> In ev run.
Proof.
  intros (_ & _ & _ & _ & _ & E) H. rewrite E.
  apply in_or_app. right. apply in_or_app. now left.
Qed.

Lemma run_polls : polls run <= maxAttempts.
Proof.
  destruct (Nat.eq_dec (polls run) 0) as [Z | Z]; [lia |].
  destruct (polls_some run) as (k & url & Hin); [lia |].
  destruct (run_polled _ Hin eq_refl) as (i & jobId & tl & rl & P & _).
  rewrite (Polled_polls _ _ _ _ P).
  destruct P as (_ & _ & _ & L & _). apply Loop_polls in L. lia.
Qed.

(** The attempt a check is labelled with is its rank among the checks
    of the run. *)
Lemma poll_label_is_rank pre k url post :
  run = pre ++ Poll k url :: post -> k = S (polls pre).
Proof.
  intros H.
  assert (Hin : In (Poll k url) run) by (rewrite H; apply in_elt).
  destruct (run_polled _ Hin eq_refl) as (i & jobId & tl & rl & Pl & _).
  destruct (Polled_cut _ _ _ _ _ _ _ _ Pl H) as (pre2 & post1 & -> & Ht & _).
  destruct Pl as (_ & _ & _ & L & _).
  destruct (Loop_cut _ _ _ _ _ _ _ _ _ _ _ _ _ L Ht) as (Hk & (pre' & -> & Hp) & _).
  rewrite !polls_app, Hp. unfold polls. simpl. lia.
Qed.

Lemma completed_data res data videoUrl rest :
  member res "data" = Ok data ->
  member data "status" = Ok (VStr "completed") ->
  member data "outputs" = Ok (VArr (videoUrl :: rest)) ->
  data_field res "status" = Ok (VStr "completed") /\
  first_output res = Ok videoUrl.
Proof.
  intros D S O. unfold data_field, first_output. rewrite D, O.
  split; [| reflexivity].
  unfold opt_member. destruct data; simpl in *; try discriminate; exact S.
Qed.

End Runs.

(** ** The poll loop: completion and bound *)

(** C1, as amended.  A check answered [completed] with a non-empty
    list of outputs whose first element is truthy has that element
    written to [output_video], with [status = 'Completed'], and is the
    last check of the run; in [server.js] this needs the download of
    the video to succeed. *)
Theorem completed_output_is_stored
        (src : Source) (w : World) (recordId : value)
        (k : nat) (url : string) (res data videoUrl : value) (rest : list value) :
  In (Poll k url) (trace (generate_animation src w recordId)) ->
  poll_result w k = Ok res ->
  member res "data" = Ok data ->
  member data "status" = Ok (VStr "completed") ->
  member data "outputs" = Ok (VArr (videoUrl :: rest)) ->
  truthy videoUrl = true ->
  (src = server_js -> download_result w k = Ok tt) ->
  output_stored src w recordId k url videoUrl.
Proof.
  intros Hin P D S O T Dl.
  destruct (completed_data _ _ _ _ D S O) as [S' O'].
  assert (Sc : Succeeds w k videoUrl).
  { exists res, (VStr "completed"). auto. }
  assert (Dok : result (download src w k videoUrl) = Ok tt).
  { unfold download. destruct src; [| reflexivity].
    unfold call. simpl. now apply Dl. }
  destruct (run_polled _ _ _ _ Hin eq_refl) as (i & jobId & tl & rl & Pl & Htl).
  pose proof Pl as (_ & _ & _ & L & _ & E).
  destruct (Loop_succeeds _ _ _ _ _ _ _ _ _ _ _ _ L Htl Sc Dok) as [Hc Hlast].
  split.
  - exists (AtCompleted k),
      (completed_fields src w videoUrl
         (elapsed_at w (ms (clock w LoopStart)) k) k),
      (is_ok (update_result w (AtCompleted k))).
    split; [| split; reflexivity].
    now apply (Polled_In _ _ _ _ _ _ _ _ Pl).
  - intros pre post H.
    destruct (Polled_cut _ _ _ _ _ _ _ _ _ _ _ Pl H) as (pre2 & post1 & _ & Ht & ->).
    rewrite polls_app, failure_tail_polls, Nat.add_0_r.
    apply polls_none. intros j u Hj.
    destruct (Loop_cut _ _ _ _ _ _ _ _ _ _ _ _ _ L Ht) as (_ & _ & Hafter).
    specialize (Hafter _ _ Hj).
    assert (j <= k); [| lia].
    apply (Hlast j u). rewrite Ht. apply in_or_app. right. now right.
Qed.

(** C2.  A run makes at most 120 status checks; each check comes
    right after a 5-second sleep and the progress write of its attempt,
    so none is made before the first sleep; and when all 120 checks
    return a non-terminal status the run raises the timeout error and
    ends by writing [status = 'Failed']. *)
Theorem poll_loop_is_bounded (src : Source) (w : World) (recordId : value) :
  let run := trace (generate_animation src w recordId) in
  polls run <= 120 /\
  (forall pre k url post,
      run = pre ++ Poll k url :: post ->
      exists pre' fields,
        pre = pre' ++ [Sleep 5000;
                       Update (AtProgress k) (table src) recordId fields true]) /\
  (polls run = 120 ->
   (forall k url, In (Poll k url) run -> nonterminal (poll_result w k)) ->
   result (background src w recordId) =
     Throw (Error "Timeout: Animation generation took too long") /\
   ends_Failed src w recordId
     (Error "Timeout: Animation generation took too long") run).
Proof.
  intros run. split; [| split].
  - apply run_polls.
  - intros pre k url post H.
    assert (Hin : In (Poll k url) run) by (rewrite H; apply in_elt).
    destruct (run_polled _ _ _ _ Hin eq_refl) as (i & jobId & tl & rl & Pl & _).
    destruct (Polled_cut _ _ _ _ _ _ _ _ _ _ _ Pl H) as (pre2 & post1 & -> & Ht & _).
    destruct Pl as (_ & _ & _ & L & _).
    destruct (Loop_cut _ _ _ _ _ _ _ _ _ _ _ _ _ L Ht) as (_ & (pre' & -> & _) & _).
    eexists. eexists. rewrite app_assoc. reflexivity.
  - intros N Hnt.
    destruct (polls_some run) as (k & url & Hin); [lia |].
    destruct (run_polled _ _ _ _ Hin eq_refl) as (i & jobId & tl & rl & Pl & _).
    pose proof Pl as (T & _ & _ & L & R & _).
    assert (rl = Ok false) as ->.
    { apply (Loop_exhausted _ _ _ _ _ _ _ _ L).
      - rewrite <- (Polled_polls _ _ _ _ _ _ _ Pl). exact N.
      - intros j u Hj. apply (Hnt j u). now apply (Polled_In _ _ _ _ _ _ _ _ Pl). }
    split; [exact R |]. now apply run_ends_Failed.
Qed.

Section Submissions.

Variable src : Source.
Variable w : World.
Variable recordId : value.

#[local] Abbreviation run := (trace (generate_animation src w recordId)).
#[local] Abbreviation body := (background src w recordId).

Lemma Accepted_unique j1 j2 : Accepted w j1 -> Accepted w j2 -> j1 = j2.
Proof. intros (o1 & b1 & S1 & _ & I1) (o2 & b2 & S2 & _ & I2). congruence. Qed.

Lemma Accepted_not_stops jobId e : Accepted w jobId -> SubmitStops w e -> False.
Proof.
  intros (o & b & S & J & I) St. inversion St; subst; congruence.
Qed.

(** The success check passes exactly on an ok response with code 200. *)
Lemma submit_rejected_false ok submitResult :
  submit_rejected ok submitResult = Ok false <->
  ok = true /\ member submitResult "code" = Ok (VNum 200).
Proof.
  unfold submit_rejected. destruct ok; simpl.
  - destruct (member submitResult "code") as [code | e].
    + destruct code; simpl; split; try (intros [_ H]; discriminate);
        try discriminate.
      * intros H. split; [reflexivity |].
        destruct (n =? 200)%Z eqn:E; [| discriminate].
        apply Z.eqb_eq in E. now subst.
      * intros [_ H]. injection H as ->. reflexivity.
    + split; [discriminate | intros [_ H]; discriminate].
  - split; [discriminate | intros [H _]; discriminate].
Qed.

(** A request of the loop seen in a run that entered it is a request
    of that loop. *)
Lemma Polled_loop_In i jobId tl rl ev :
  Polled src w recordId i jobId tl rl -> In ev run -> in_loop ev = true ->
  In ev tl.
Proof.
  intros (_ & _ & _ & _ & _ & E) Hin Hl. rewrite E in Hin.
  apply in_app_or in Hin. destruct Hin as [Hin | Hin].
  - simpl in Hin. intuition (subst; discriminate).
  - apply in_app_or in Hin. destruct Hin as [Hin | Hin]; [exact Hin |].
    apply failure_tail_In in Hin. destruct Hin as (e & _ & ->). discriminate.
Qed.

(** A run that submitted read valid inputs from the record, sent
    the payload built from them, and took one of three ways. *)
Lemma run_submitted url payload :
  In (Submit url payload) run ->
  exists record i,
    truthy recordId = true /\
    find_result w = Ok record /\ Reads src record i /\ Valid i /\
    Submit url payload = Submission src i /\
    AfterSubmit src w recordId i.
Proof.
  intros Hin.
  destruct (run_inv src w recordId) as [[T E] | (T & tb & rb & Erb & P & E)];
    rewrite E in Hin.
  - destruct Hin as [H | []]. discriminate.
  - destruct Hin as [H | Hin]; [discriminate |].
    assert (Hin' : In (Submit url payload) tb).
    { apply in_app_or in Hin. destruct Hin as [Hin | Hin]; [exact Hin |].
      apply failure_tail_In in Hin. destruct Hin as (e & _ & H). discriminate. }
    clear Hin.
    destruct P as [e N | record i e F R V U | record i e F R V U S
                   | record i jobId e F R V U A J
                   | record i jobId tl rl F R V U A J L].
    + simpl in Hin'. intuition discriminate.
    + simpl in Hin'. intuition discriminate.
    + exists record, i. do 4 (split; [assumption |]). split.
      * simpl in Hin'. intuition (try discriminate; congruence).
      * left. exists e. auto.
    + exists record, i. do 4 (split; [assumption |]). split.
      * simpl in Hin'. intuition (try discriminate; congruence).
      * right. left. exists jobId, e. auto.
    + exists record, i. do 4 (split; [assumption |]). split.
      * simpl in Hin'. destruct Hin' as [H | [H | [H | [H | Hin']]]];
          try discriminate; auto.
        exfalso. destruct (Loop_In _ _ _ _ _ _ _ _ _ _ L Hin') as (k & _ & R').
        destruct R' as [H | [H | [[H _] | (u & _ & [[H _] | H])]]]; discriminate.
      * right. right. exists jobId, tl, rl. unfold Polled.
        split; [assumption |]. split; [exists record; auto |].
        do 3 (split; [assumption |]). rewrite E. reflexivity.
Qed.

Lemma Reads_inv record i :
  Reads src record i ->
  first_url record "input_image" = Ok (in_image i) /\
  first_url record "input_video" = Ok (in_video i) /\
  field_or record "prompt" (VStr "") = Ok (in_prompt i) /\
  mode_of src record = Ok (in_mode i) /\
  resolution_of src record = Ok (in_resolution i) /\
  field_or record "seed" (VNum (-1)) = Ok (in_seed i).
Proof.
  unfold Reads, read_inputs. intros R.
  repeat match type of R with
         | match ?r with Ok _ => _ | Throw _ => _ end = _ =>
             destruct r; [| discriminate]
         end.
  injection R as <-. simpl. auto 10.
Qed.

End Submissions.

(** ** Submission *)

(** C3.  When the submission succeeds, the record is updated with
    the job id and [status = 'Processing...'], and every check of the
    run comes after that write was accepted. *)
Theorem job_id_is_persisted_before_polling
        (src : Source) (w : World) (recordId : value)
        (url : string) (payload : list (string * value)) (jobId : value) :
  let run := trace (generate_animation src w recordId) in
  In (Submit url payload) run ->
  Accepted w jobId ->
  exists fields,
    assoc "job_id" fields = Some jobId /\
    assoc "status" fields = Some (VStr "Processing...") /\
    (exists acc, In (Update AtJobId (table src) recordId fields acc) run) /\
    (forall pre k u post,
        run = pre ++ Poll k u :: post ->
        In (Update AtJobId (table src) recordId fields true) pre).
Proof.
  intros run Hin A.
  destruct (run_submitted _ _ _ _ _ Hin)
    as (record & i & T & F & R & V & Es &
        [(e & St & _) | [(j & e & A' & U & _ & E) | (j & tl & rl & Pl)]]).
  - exfalso. exact (Accepted_not_stops _ _ _ A St).
  - rewrite (Accepted_unique _ _ _ A' A) in E. clear A' j.
    exists (job_fields w jobId). split; [reflexivity |]. split; [reflexivity |].
    split.
    + exists false. unfold run. rewrite E. simpl. auto 10.
    + intros pre k u post H. exfalso. unfold run in H. rewrite E in H.
      simpl in H.
      repeat (destruct pre as [| ? pre]; simpl in H;
              [discriminate | injection H as <- H]).
      now destruct pre.
  - pose proof Pl as (_ & _ & A' & _ & _ & E).
    rewrite (Accepted_unique _ _ _ A' A) in *. clear A' j.
    exists (job_fields w jobId). split; [reflexivity |]. split; [reflexivity |].
    split.
    + exists true. unfold run. rewrite E. simpl. auto 10.
    + intros pre k u post H.
      destruct (Polled_cut _ _ _ _ _ _ _ _ _ _ _ Pl H) as (pre2 & _ & -> & _).
      apply in_or_app. left. simpl. auto 10.
Qed.

Lemma rejected_not_accepted (w : World) ok submitResult jobId :
  submit_result w = Ok (ok, submitResult) ->
  ok = false \/ member submitResult "code" <> Ok (VNum 200) ->
  Accepted w jobId -> False.
Proof.
  intros S H (ok' & body' & S' & J & _).
  rewrite S in S'. injection S' as <- <-.
  apply submit_rejected_false in J. destruct J as [-> C].
  destruct H as [H | H]; [discriminate | contradiction].
Qed.

(** C5.  When the submission response is not ok, or the code of its
    body is not 200, the run ends by writing [status = 'Failed'], its
    error message is the message of the body when there is a truthy
    one, and no write of the run carries [job_id]. *)
Theorem rejected_submission_fails
        (src : Source) (w : World) (recordId : value)
        (url : string) (payload : list (string * value))
        (ok : bool) (submitResult : value) :
  let run := trace (generate_animation src w recordId) in
  In (Submit url payload) run ->
  submit_result w = Ok (ok, submitResult) ->
  ok = false \/ member submitResult "code" <> Ok (VNum 200) ->
  exists e,
    result (background src w recordId) = Throw e /\
    ends_Failed src w recordId e run /\
    (forall msg, member submitResult "message" = Ok msg -> truthy msg = true ->
                 e = Error ("API error: " ^^ to_String msg)) /\
    (forall site tb rid fields acc,
        In (Update site tb rid fields acc) run -> has_key "job_id" fields = false).
Proof.
  intros run Hin S H.
  destruct (run_submitted _ _ _ _ _ Hin)
    as (record & i & T & F & R & V & Es &
        [(e & St & Rb & E) | [(j & e & A & _) | (j & tl & rl & (_ & _ & A & _))]]).
  2, 3: exfalso; exact (rejected_not_accepted _ _ _ _ S H A).
  exists e. split; [exact Rb |]. split; [now apply run_ends_Failed |]. split.
  - intros msg Hm Tm.
    inversion St as [e' S' | ok' b' e' S' J | ok' b' e' S' J Ae
                     | ok' b' e' S' J Ae | ok' b' e' S' J I]; subst;
      rewrite S in S'; try discriminate; injection S' as <- <-.
    + exfalso. unfold submit_rejected in J.
      destruct ok; simpl in J; [| discriminate].
      destruct submitResult; simpl in *; discriminate.
    + unfold api_error in Ae. rewrite Hm in Ae. unfold or_else in Ae.
      rewrite Tm in Ae. now injection Ae as <-.
    + unfold api_error in Ae. rewrite Hm in Ae. discriminate.
    + exfalso. apply submit_rejected_false in J. destruct J as [-> C].
      destruct H as [H | H]; [discriminate | contradiction].
  - intros site tb rid fields acc Hu. unfold run in Hu. rewrite E in Hu.
    simpl in Hu.
    destruct Hu as [Hu | [Hu | [Hu | [Hu | [Hu | []]]]]]; try discriminate;
      injection Hu as <- <- <- <- <-; reflexivity.
Qed.

(** C9.  The payload sent has a [prompt] key exactly when the prompt
    of the record is truthy: an absent or empty prompt gives a payload
    without the key, a non-empty one a payload carrying it. *)
Theorem prompt_key_iff_nonempty
        (src : Source) (w : World) (recordId : value)
        (url : string) (payload : list (string * value))
        (record promptField : value) :
  In (Submit url payload) (trace (generate_animation src w recordId)) ->
  find_result w = Ok record ->
  field record "prompt" = Ok promptField ->
  has_key "prompt" payload = truthy promptField /\
  (promptField = VUndefined \/ promptField = VStr "" ->
   assoc "prompt" payload = None) /\
  (forall s, promptField = VStr s -> s <> "" ->
             assoc "prompt" payload = Some (VStr s)).
Proof.
  intros Hin F P.
  destruct (run_submitted _ _ _ _ _ Hin)
    as (record' & i & _ & F' & R & _ & Es & _).
  assert (record' = record) as -> by congruence.
  apply Reads_inv in R. destruct R as (_ & _ & Rp & _).
  unfold field_or in Rp. rewrite P in Rp. injection Rp as Rp.
  injection Es as _ ->. rewrite <- Rp. unfold submitPayload, or_else, has_key.
  split; [| split].
  - destruct (truthy promptField) eqn:T; rewrite ?T; reflexivity.
  - intros [-> | ->]; reflexivity.
  - intros s -> Hs.
    assert (T : truthy (VStr s) = true).
    { simpl. destruct (String.eqb_spec s ""); [contradiction | reflexivity]. }
    rewrite !T. reflexivity.
Qed.

(** C10.  A falsy seed, 0 included, is sent as -1; a truthy seed is
    sent as it is; so the payload never carries the seed 0. *)
Theorem zero_seed_becomes_sentinel
        (src : Source) (w : World) (recordId : value)
        (url : string) (payload : list (string * value))
        (record seedField : value) :
  In (Submit url payload) (trace (generate_animation src w recordId)) ->
  find_result w = Ok record ->
  field record "seed" = Ok seedField ->
  (truthy seedField = false -> assoc "seed" payload = Some (VNum (-1))) /\
  (seedField = VNum 0 \/ seedField = VUndefined ->
   assoc "seed" payload = Some (VNum (-1))) /\
  (truthy seedField = true -> assoc "seed" payload = Some seedField) /\
  (forall n, seedField = VNum n -> n <> 0%Z ->
             assoc "seed" payload = Some (VNum n)) /\
  assoc "seed" payload <> Some (VNum 0).
Proof.
  intros Hin F P.
  destruct (run_submitted _ _ _ _ _ Hin)
    as (record' & i & _ & F' & R & _ & Es & _).
  assert (record' = record) as -> by congruence.
  apply Reads_inv in R. destruct R as (_ & _ & _ & _ & _ & Rs).
  unfold field_or in Rs. rewrite P in Rs. injection Rs as Rs.
  injection Es as _ ->.
  assert (E : assoc "seed"
                (submitPayload (in_image i) (in_video i) (in_mode i)
                               (in_resolution i) (in_seed i) (in_prompt i))
              = Some (or_else seedField (VNum (-1)))).
  { rewrite Rs. unfold submitPayload. destruct (truthy (in_prompt i)); reflexivity. }
  rewrite E. unfold or_else. repeat split.
  - now intros ->.
  - intros [-> | ->]; reflexivity.
  - now intros ->.
  - intros n -> Hn. simpl. destruct (Z.eqb_spec n 0); [contradiction | reflexivity].
  - destruct (truthy seedField) eqn:T; [| discriminate].
    intros H. injection H as ->. discriminate.
Qed.

Lemma missing_input_not_valid (src : Source) (record : value) (i : Inputs) :
  first_url record "input_image" = Ok VUndefined \/
  first_url record "input_video" = Ok VUndefined ->
  Reads src record i -> Valid i -> False.
Proof.
  intros H R [Vi Vv]. apply Reads_inv in R. destruct R as (Ri & Rv & _).
  destruct H as [H | H].
  - rewrite H in Ri. injection Ri as Ri. rewrite <- Ri in Vi. discriminate.
  - rewrite H in Rv. injection Rv as Rv. rewrite <- Rv in Vv. discriminate.
Qed.

(** C4.  When the first attachment URL of [input_image] or of
    [input_video] is absent, nothing is submitted and the run ends by
    writing [status = 'Failed']. *)
Theorem missing_input_fails
        (src : Source) (w : World) (recordId record : value) :
  let run := trace (generate_animation src w recordId) in
  truthy recordId = true ->
  find_result w = Ok record ->
  first_url record "input_image" = Ok VUndefined \/
  first_url record "input_video" = Ok VUndefined ->
  (forall url payload, ~ In (Submit url payload) run) /\
  exists e, result (background src w recordId) = Throw e /\
            ends_Failed src w recordId e run.
Proof.
  intros run T F H. split.
  - intros url payload Hin.
    destruct (run_submitted _ _ _ _ _ Hin) as (record' & i & _ & F' & R & V & _).
    assert (record' = record) as -> by congruence.
    exact (missing_input_not_valid _ _ _ H R V).
  - destruct (run_inv src w recordId) as [[T' _] | (_ & tb & rb & Erb & P & _)];
      [congruence |].
    destruct P as [e N | record' i e F' R V U | record' i e F' R V U S
                   | record' i jobId e F' R V U A J
                   | record' i jobId tl rl F' R V U A J L].
    1: exists e; split; [exact Erb | now apply run_ends_Failed].
    all: exfalso; assert (record' = record) as -> by congruence;
      exact (missing_input_not_valid _ _ _ H R V).
Qed.

(** ** Writes to the record *)

(** C6, as amended.  A rejected progress write of attempt [k] aborts
    the run: the [try] block raises the store's error, the check of
    attempt [k] is never made, nor any later one (the run made the
    [k - 1] checks of the earlier attempts), and the run ends by
    writing [status = 'Failed'] with that error. *)
Theorem rejected_progress_write_aborts
        (src : Source) (w : World) (recordId : value)
        (k : nat) (fields : list (string * value)) (acc : bool) (e : exn) :
  let run := trace (generate_animation src w recordId) in
  In (Update (AtProgress k) (table src) recordId fields acc) run ->
  update_result w (AtProgress k) = Throw e ->
  result (background src w recordId) = Throw e /\
  ends_Failed src w recordId e run /\
  polls run = k - 1 /\
  (forall j url, In (Poll j url) run -> j < k).
Proof.
  intros run Hin U.
  destruct (run_polled _ _ _ _ Hin eq_refl) as (i & jobId & tl & rl & Pl & Htl).
  pose proof Pl as (T & _ & _ & L & R & _).
  destruct (Loop_progress_rejected _ _ _ _ _ _ _ _ _ _ _ _ _ _ _ L Htl U)
    as (-> & Hp & Hlt).
  split; [exact R |]. split; [now apply run_ends_Failed |]. split.
  - unfold run. now rewrite (Polled_polls _ _ _ _ _ _ _ Pl).
  - intros j url Hj. apply (Hlt j url).
    now apply (Polled_loop_In _ _ _ _ _ _ _ _ Pl).
Qed.

(** C8.  A run writes [output_video] at most once, in the write that
    follows a completed check with a usable output; every other write
    touches only [status], [error_log] and [job_id]. *)
Theorem output_video_written_once_on_success
        (src : Source) (w : World) (recordId : value) :
  let run := trace (generate_animation src w recordId) in
  video_writes run <= 1 /\
  (forall site tb rid fields acc,
      In (Update site tb rid fields acc) run ->
      match site with
      | AtCompleted k =>
          exists videoUrl,
            Succeeds w k videoUrl /\
            assoc "output_video" fields = Some (output_video_of src videoUrl) /\
            assoc "status" fields = Some (VStr "Completed")
      | _ =>
          only_keys ["status"; "error_log"; "job_id"] fields = true /\
          has_key "output_video" fields = false
      end).
Proof.
  intros run.
  destruct (run_inv src w recordId) as [[T E] | (T & tb & rb & Erb & P & E)];
    unfold run; rewrite E.
  { split; [unfold video_writes; simpl; lia |].
    intros site tb rid fields acc [H | []]. discriminate. }
  assert (Tail : forall site tb' rid fields acc r,
             In (Update site tb' rid fields acc) (failure_tail src w recordId r) ->
             site = AtFailed /\
             only_keys ["status"; "error_log"; "job_id"] fields = true /\
             has_key "output_video" fields = false).
  { intros site tb' rid fields acc r H. apply failure_tail_In in H.
    destruct H as (e & _ & H). injection H as -> -> -> -> ->. auto. }
  assert (TailW : forall r, video_writes (failure_tail src w recordId r) = 0).
  { intros [x | e]; reflexivity. }
  destruct P as [e N | record i e F R V U | record i e F R V U S
                 | record i jobId e F R V U A J
                 | record i jobId tl rl F R V U A J L].
  1-4: split;
    [ unfold video_writes; simpl; lia
    | intros site tb rid fields acc Hin; simpl in Hin;
      repeat (destruct Hin as [Hin | Hin];
              [try discriminate; injection Hin as <- <- <- <- <-; auto |]);
      destruct Hin ].
  split.
  - pose proof (Loop_video_writes _ _ _ _ _ _ _ _ _ L) as B.
    pose proof (TailW (finish rl)) as Z.
    unfold video_writes in *. unfold Acknowledge, Fetch, Start, Submission, Persist.
    simpl. rewrite filter_app, length_app. lia.
  - intros site tb rid fields acc Hin.
    destruct Hin as [Hin | Hin]; [discriminate |].
    apply in_app_or in Hin. destruct Hin as [Hin | Hin].
    2:{ destruct (Tail _ _ _ _ _ _ Hin) as (-> & K); exact K. }
    apply in_app_or in Hin. destruct Hin as [Hin | Hin].
    + simpl in Hin.
      repeat (destruct Hin as [Hin | Hin];
              [try discriminate; injection Hin as <- <- <- <- <-; auto |]).
      destruct Hin.
    + destruct (Loop_In _ _ _ _ _ _ _ _ _ _ L Hin) as (k & _ & Rq).
      apply LoopRequest_update in Rq.
      destruct Rq as (_ & _ & _ & [[-> ->] | (u & Sc & -> & ->)]).
      * auto.
      * exists u. auto.
Qed.

(** ** The properties on the sample worlds *)

Lemma completed_output_is_stored_witness :
  In (Poll 1 Samples.poll_url)
     (trace (generate_animation server_js Samples.completes Samples.rec_id)) /\
  output_stored server_js Samples.completes Samples.rec_id 1 Samples.poll_url
                (VStr "http://out/video.mp4").
Proof.
  assert (Hin : In (Poll 1 Samples.poll_url)
                   (trace (generate_animation server_js Samples.completes
                                              Samples.rec_id))).
  { vm_compute. find_in. }
  split; [exact Hin |].
  apply (completed_output_is_stored
           server_js Samples.completes Samples.rec_id 1 Samples.poll_url
           (Samples.completed_with [VStr "http://out/video.mp4"])
           (VObj [("status", VStr "completed");
                  ("outputs", VArr [VStr "http://out/video.mp4"])])
           (VStr "http://out/video.mp4") []);
    [exact Hin | reflexivity ..].
Defined.

(** C1, as stated, fails in [server.js] when the download of the
    video fails, and in both files when the first output is the empty
    string. *)
Lemma first_output_not_always_stored :
  ~ stores_every_first_output server_js Samples.download_fails Samples.rec_id /\
  ~ stores_every_first_output (part_000 Samples.env0) Samples.empty_output
      Samples.rec_id.
Proof.
  split; intros H.
  - destruct (H 1 Samples.poll_url
                (Samples.completed_with [VStr "http://out/video.mp4"])
                (VObj [("status", VStr "completed");
                       ("outputs", VArr [VStr "http://out/video.mp4"])])
                (VStr "http://out/video.mp4") [])
      as [(site & fields & acc & Hin & Hv & _) _];
      [vm_compute; find_in | reflexivity ..|].
    vm_compute in Hin.
    repeat (destruct Hin as [Hin | Hin];
            [try discriminate; injection Hin as _ <- _; discriminate |]).
    destruct Hin.
  - destruct (H 1 Samples.poll_url
                (Samples.completed_with [VStr ""])
                (VObj [("status", VStr "completed"); ("outputs", VArr [VStr ""])])
                (VStr "") [])
      as [(site & fields & acc & Hin & Hv & _) _];
      [vm_compute; find_in | reflexivity ..|].
    vm_compute in Hin.
    repeat (destruct Hin as [Hin | Hin];
            [try discriminate; injection Hin as _ <- _; discriminate |]).
    destruct Hin.
Qed.

Lemma poll_loop_is_bounded_witness :
  polls (trace (generate_animation server_js Samples.never_ends Samples.rec_id))
    = 120 /\
  result (background server_js Samples.never_ends Samples.rec_id) =
    Throw (Error "Timeout: Animation generation took too long").
Proof.
  split; [vm_compute; reflexivity |].
  destruct (poll_loop_is_bounded server_js Samples.never_ends Samples.rec_id)
    as (_ & _ & H).
  apply H.
  - vm_compute. reflexivity.
  - intros k url _. exists Samples.processing, (VStr "processing").
    repeat split.
Defined.

Lemma job_id_is_persisted_before_polling_witness :
  In (Submit Samples.submit_url Samples.payload_seed42)
     (trace (generate_animation server_js Samples.completes Samples.rec_id)) /\
  Accepted Samples.completes (VStr "job1") /\
  exists fields,
    assoc "job_id" fields = Some (VStr "job1") /\
    forall pre k u post,
      trace (generate_animation server_js Samples.completes Samples.rec_id)
        = pre ++ Poll k u :: post ->
      In (Update AtJobId "animate_generation" Samples.rec_id fields true) pre.
Proof.
  assert (Hin : In (Submit Samples.submit_url Samples.payload_seed42)
                   (trace (generate_animation server_js Samples.completes
                                              Samples.rec_id))).
  { vm_compute. find_in. }
  assert (A : Accepted Samples.completes (VStr "job1")).
  { eexists. eexists. repeat split. }
  split; [exact Hin |]. split; [exact A |].
  destruct (job_id_is_persisted_before_polling
              server_js Samples.completes Samples.rec_id _ _ _ Hin A)
    as (fields & J & _ & _ & O).
  exists fields. split; [exact J | exact O].
Defined.

Lemma missing_input_fails_witness :
  first_url Samples.record_no_video "input_video" = Ok VUndefined /\
  forall url payload,
    ~ In (Submit url payload)
         (trace (generate_animation server_js Samples.no_video Samples.rec_id)).
Proof.
  split; [reflexivity |].
  apply (missing_input_fails server_js Samples.no_video Samples.rec_id
                             Samples.record_no_video);
    [reflexivity | reflexivity | right; reflexivity].
Defined.

Lemma rejected_submission_fails_witness :
  In (Submit Samples.submit_url Samples.payload_dance)
     (trace (generate_animation server_js Samples.refused Samples.rec_id)) /\
  result (background server_js Samples.refused Samples.rec_id) =
    Throw (Error "API error: invalid api key").
Proof.
  assert (Hin : In (Submit Samples.submit_url Samples.payload_dance)
                   (trace (generate_animation server_js Samples.refused
                                              Samples.rec_id))).
  { vm_compute. find_in. }
  split; [exact Hin |].
  destruct (rejected_submission_fails
              server_js Samples.refused Samples.rec_id _ _ false
              (VObj [("code", VNum 401); ("message", VStr "invalid api key")])
              Hin eq_refl (or_introl eq_refl))
    as (e & R & _ & M & _).
  rewrite R. f_equal. apply (M (VStr "invalid api key")); reflexivity.
Defined.

Lemma rejected_progress_write_aborts_witness :
  update_result Samples.progress_rejected (AtProgress 1) =
    Throw (Error "429 Too Many Requests") /\
  result (background server_js Samples.progress_rejected Samples.rec_id) =
    Throw (Error "429 Too Many Requests") /\
  forall j url,
    In (Poll j url)
       (trace (generate_animation server_js Samples.progress_rejected
                                  Samples.rec_id)) ->
    j < 1.
Proof.
  split; [reflexivity |].
  destruct (rejected_progress_write_aborts
              server_js Samples.progress_rejected Samples.rec_id 1
              (progress_fields (VStr "job1") 5 1) false
              (Error "429 Too Many Requests"))
    as (R & _ & _ & P); [vm_compute; find_in | reflexivity |].
  split; [exact R | exact P].
Defined.

(** C6, as stated, fails: with the progress write of the first attempt
    rejected the run raises the store's error, with it accepted the
    same run completes. *)
Lemma progress_failure_is_not_harmless :
  ~ progress_failure_is_harmless server_js Samples.progress_rejected
      Samples.rec_id.
Proof.
  intros H.
  destruct (H 1 (progress_fields (VStr "job1") 5 1)
              (Error "429 Too Many Requests"))
    as [R _]; [vm_compute; find_in | reflexivity |].
  vm_compute in R. discriminate.
Qed.

Lemma output_video_written_once_on_success_witness :
  video_writes (trace (generate_animation server_js Samples.completes
                                          Samples.rec_id)) = 1 /\
  exists videoUrl, Succeeds Samples.completes 1 videoUrl.
Proof.
  split; [vm_compute; reflexivity |].
  destruct (output_video_written_once_on_success
              server_js Samples.completes Samples.rec_id) as [_ H].
  destruct (H (AtCompleted 1) "animate_generation" Samples.rec_id
              (completed_fields server_js Samples.completes
                                (VStr "http://out/video.mp4") 5 1) true)
    as (videoUrl & S & _); [vm_compute; find_in |].
  exists videoUrl. exact S.
Defined.

Lemma prompt_key_iff_nonempty_witness :
  In (Submit Samples.submit_url Samples.payload_dance)
     (trace (generate_animation server_js Samples.refused Samples.rec_id)) /\
  assoc "prompt" Samples.payload_dance = Some (VStr "dance").
Proof.
  assert (Hin : In (Submit Samples.submit_url Samples.payload_dance)
                   (trace (generate_animation server_js Samples.refused
                                              Samples.rec_id))).
  { vm_compute. find_in. }
  split; [exact Hin |].
  destruct (prompt_key_iff_nonempty
              server_js Samples.refused Samples.rec_id _ _
              Samples.record_dance (VStr "dance") Hin eq_refl eq_refl)
    as (_ & _ & H).
  apply (H "dance" eq_refl). discriminate.
Defined.

Lemma zero_seed_becomes_sentinel_witness :
  field Samples.record_dance "seed" = Ok (VNum 0) /\
  assoc "seed" Samples.payload_dance = Some (VNum (-1)).
Proof.
  split; [reflexivity |].
  assert (Hin : In (Submit Samples.submit_url Samples.payload_dance)
                   (trace (generate_animation server_js Samples.refused
                                              Samples.rec_id))).
  { vm_compute. find_in. }
  destruct (zero_seed_becomes_sentinel
              server_js Samples.refused Samples.rec_id _ _
              Samples.record_dance (VNum 0) Hin eq_refl eq_refl)
    as (_ & H & _).
  apply H. left. reflexivity.
Defined.

Lemma absent_data_fails (src : Source) (w : World) (recordId : value)
      (url : string) (payload : list (string * value)) (submitResult : value) :
  let run := trace (generate_animation src w recordId) in
  In (Submit url payload) run ->
  submit_result w = Ok (true, submitResult) ->
  member submitResult "code" = Ok (VNum 200) ->
  member submitResult "data" = Ok VUndefined ->
  result (background src w recordId) = Throw (type_error "undefined" "id") /\
  ends_Failed src w recordId (type_error "undefined" "id") run /\
  polls run = 0.
Proof.
  intros run Hin S C D.
  assert (J : job_id_of submitResult = Throw (type_error "undefined" "id")).
  { unfold job_id_of. now rewrite D. }
  assert (R : submit_rejected true submitResult = Ok false).
  { apply submit_rejected_false. auto. }
  destruct (run_submitted _ _ _ _ _ Hin)
    as (record & i & T & F & Rd & V & Es &
        [(e & St & Rb & E) | [(j & e & A & _) | (j & tl & rl & (_ & _ & A & _))]]).
  2, 3: exfalso; destruct A as (ok' & b' & S' & _ & I); congruence.
  assert (e = type_error "undefined" "id") as ->.
  { inversion St; subst; congruence. }
  split; [exact Rb |]. split; [now apply run_ends_Failed |].
  unfold run. rewrite E. reflexivity.
Qed.

(** C7 fails on the code.  When the response passes the success check
    and has a [data] member without [id], the job id read is
    [undefined]; it is written to the record with
    [status = 'Processing...'], and the loop is entered and checks the
    result of the job [undefined] until the attempts run out. *)
Theorem missing_job_id_is_polled :
  Accepted Samples.no_job_id VUndefined /\
  polls_undefined_job server_js /\
  polls_undefined_job (part_000 Samples.env0).
Proof.
  split.
  - eexists. eexists. repeat split.
  - split; (split; [| split; [| split]]);
      try (vm_compute; reflexivity); vm_compute; find_in.
Qed.

(** The end-to-end scenario on [part_000]: the payload has the fixed
    mode and resolution and no prompt, and the run ends with the
    write of the output URL. *)
Example end_to_end_scenario :
  let run := trace (generate_animation (part_000 Samples.env0) Samples.completes
                                       Samples.rec_id) in
  In (Submit Samples.submit_url
             [ ("image", VStr "http://x/i.png"); ("video", VStr "http://x/v.mp4");
               ("mode", VStr "animate"); ("resolution", VStr "720p");
               ("seed", VNum 42) ]) run /\
  polls run = 1 /\
  exists fields,
    last run (Sleep 0) =
      Update (AtCompleted 1) "animate_generation" Samples.rec_id fields true /\
    assoc "output_video" fields = Some (VStr "http://out/video.mp4") /\
    assoc "status" fields = Some (VStr "Completed").
Proof.
  split; [vm_compute; find_in |]. split; [vm_compute; reflexivity |].
  eexists. split; [vm_compute; reflexivity |]. split; reflexivity.
Qed.

(** * Further properties of the handler *)

(** ** Counting and classifying requests *)

Lemma count_app f t1 t2 : count f (t1 ++ t2) = count f t1 + count f t2.
Proof. unfold count. now rewrite filter_app, length_app. Qed.

Lemma count_none f t : (forall ev, In ev t -> f ev = false) -> count f t = 0.
Proof.
  induction t as [| ev t IH]; intros H; [reflexivity |].
  unfold count in *. simpl. rewrite (H ev (or_introl eq_refl)).
  apply IH. intros ev' Hin. apply H. now right.
Qed.

Lemma count_some f t : 0 < count f t -> exists ev, In ev t /\ f ev = true.
Proof.
  induction t as [| ev t IH]; unfold count; simpl; [lia |].
  destruct (f ev) eqn:F; intros H.
  - exists ev. auto.
  - destruct (IH H) as (ev' & Hin & F'). exists ev'. auto.
Qed.

Lemma sites_app t1 t2 : sites (t1 ++ t2) = sites t1 ++ sites t2.
Proof. unfold sites. apply flat_map_app. Qed.

Lemma result_try_catch {A} (m : M A) (h : exn -> M A) :
  result (try_catch m h) =
  match result m with Ok a => Ok a | Throw e => result (h e) end.
Proof.
  destruct m as [t [a | e]]; simpl; [reflexivity |]. now destruct (h e).
Qed.

Section Classify.

Variable src : Source.
Variable w : World.
Variable recordId : value.

#[local] Abbreviation run := (trace (generate_animation src w recordId)).
#[local] Abbreviation body := (background src w recordId).

Lemma Loop_in_loop jobId startTime a c t r ev :
  Loop src w recordId jobId startTime a c t r -> In ev t -> in_loop ev = true.
Proof.
  intros L Hin. destruct (Loop_In _ _ _ _ _ _ _ _ _ _ L Hin) as (k & _ & R).
  destruct R as [-> | [-> | [[-> _] | (u & _ & [[-> _] | ->])]]]; reflexivity.
Qed.

(** The requests of the [try] block: the fetch, the two writes and the
    submission before the loop, and the requests of the loop. *)
Lemma Path_In tb rb ev :
  Path src w recordId tb rb -> In ev tb ->
  ev = Fetch src recordId \/
  (exists i, ev = Start src w recordId i (is_ok (update_result w AtStart))) \/
  (exists i, ev = Submission src i /\ update_result w AtStart = Ok tt) \/
  (exists jobId, ev = Persist src w recordId jobId (is_ok (update_result w AtJobId))
                 /\ Accepted w jobId) \/
  in_loop ev = true.
Proof.
  intros P Hin.
  destruct P as [e N | record i e F R V U | record i e F R V U S
                 | record i jobId e F R V U A J
                 | record i jobId tl rl F R V U A J L];
    try rewrite U; try rewrite J; simpl in Hin.
  - intuition.
  - destruct Hin as [<- | [<- | []]]; eauto.
  - destruct Hin as [<- | [<- | [<- | []]]]; eauto 6.
  - destruct Hin as [<- | [<- | [<- | [<- | []]]]]; eauto 8.
  - destruct Hin as [<- | [<- | [<- | [<- | Hin]]]]; eauto 8.
    right; right; right; right. now apply (Loop_in_loop _ _ _ _ _ _ _ L).
Qed.

(** The requests of a run. *)
Lemma run_In ev :
  In ev run ->
  is_respond ev = true \/
  (exists e, result body = Throw e /\
             ev = Update AtFailed (table src) recordId (failed_fields w e)
                         (is_ok (update_result w AtFailed))) \/
  ev = Fetch src recordId \/
  (exists i, ev = Start src w recordId i (is_ok (update_result w AtStart))) \/
  (exists i, ev = Submission src i /\ update_result w AtStart = Ok tt) \/
  (exists jobId, ev = Persist src w recordId jobId (is_ok (update_result w AtJobId))
                 /\ Accepted w jobId) \/
  in_loop ev = true.
Proof.
  intros Hin.
  destruct (run_inv src w recordId) as [[T E] | (T & tb & rb & Erb & P & E)];
    rewrite E in Hin.
  - destruct Hin as [<- | []]. now left.
  - destruct Hin as [<- | Hin]; [now left |].
    apply in_app_or in Hin. destruct Hin as [Hin | Hin].
    + right. right. now apply Path_In with tb rb.
    + apply failure_tail_In in Hin. destruct Hin as (e & -> & ->).
      right. left. exists e. auto.
Qed.

End Classify.

(** ** The response and the fate of the task *)

(** X1.  The HTTP response is the first thing a call of the handler
    does and it is sent once: status 400 and nothing else when
    [recordId] is falsy, status 200 before any store or API request
    otherwise. *)
Theorem response_comes_first (src : Source) (w : World) (recordId : value) :
  exists status body rest,
    trace (generate_animation src w recordId) = Respond status body :: rest /\
    count is_respond rest = 0 /\
    (truthy recordId = false -> status = 400%Z /\ rest = []) /\
    (truthy recordId = true ->
     status = 200%Z /\ member body "recordId" = Ok recordId /\
     exists rest', rest = Find (table src) recordId :: rest').
Proof.
  destruct (run_inv src w recordId) as [[T E] | (T & tb & rb & Erb & P & E)].
  - eexists. eexists. exists []. split; [exact E |]. split; [reflexivity |].
    split; [auto | congruence].
  - eexists. eexists. eexists. split; [exact E |]. split; [| split].
    + rewrite count_app. rewrite (count_none _ tb), (count_none _ (failure_tail _ _ _ _)).
      * reflexivity.
      * intros ev Hin. apply failure_tail_In in Hin.
        destruct Hin as (e & _ & ->). reflexivity.
      * intros ev Hin.
        destruct (Path_In _ _ _ _ _ _ P Hin)
          as [-> | [(i & ->) | [(i & -> & _) | [(j & -> & _) | L]]]];
          try reflexivity.
        destruct ev; try discriminate; reflexivity.
    + congruence.
    + intros _. split; [reflexivity |]. split; [reflexivity |].
      destruct P; simpl; eauto.
Qed.

(** X2.  The handler itself never throws: whatever the store and the
    API answer, and even when the write of the failure is itself
    rejected, the promise of the handler resolves. *)
Theorem handler_never_throws (src : Source) (w : World) (recordId : value) :
  result (generate_animation src w recordId) = Ok tt.
Proof.
  unfold generate_animation. destruct (truthy recordId); cbn [negb];
    [| reflexivity].
  rewrite result_bind. cbn [call result snd]. rewrite result_try_catch.
  destruct (result (background src w recordId)) as [[] | e]; [reflexivity |].
  unfold on_error. rewrite result_try_catch. unfold update, call. simpl.
  destruct (update_result w AtFailed) as [[] | e']; reflexivity.
Qed.

Lemma response_comes_first_witness :
  truthy Samples.rec_id = true /\
  exists body rest',
    trace (generate_animation server_js Samples.completes Samples.rec_id) =
    Respond 200 body :: Find "animate_generation" Samples.rec_id :: rest'.
Proof.
  split; [reflexivity |].
  destruct (response_comes_first server_js Samples.completes Samples.rec_id)
    as (status & body & rest & E & _ & _ & H).
  destruct (H eq_refl) as (-> & _ & rest' & ->).
  exists body, rest'. exact E.
Defined.

(** ** The steps before the loop *)

Section BeforeLoop.

Variable src : Source.
Variable w : World.
Variable recordId : value.

#[local] Abbreviation run := (trace (generate_animation src w recordId)).
#[local] Abbreviation body := (background src w recordId).

Lemma failure_tail_count f r :
  f (Update AtFailed (table src) recordId [] true) = false ->
  (forall s tb rid fl acc fl' acc',
      f (Update s tb rid fl acc) = f (Update s tb rid fl' acc')) ->
  count f (failure_tail src w recordId r) = 0.
Proof.
  intros H Hext. destruct r as [x | e]; [reflexivity |].
  unfold count. simpl. rewrite (Hext _ _ _ _ _ [] true), H. reflexivity.
Qed.

Lemma Polled_count f i jobId tl rl :
  Polled src w recordId i jobId tl rl ->
  (forall ev, in_loop ev = false -> f ev = false) ->
  count f run = count f tl.
Proof.
  intros (_ & _ & _ & _ & _ & E) H. rewrite E, !count_app.
  rewrite (count_none f (failure_tail _ _ _ _)).
  - unfold count at 1. simpl. rewrite !H by reflexivity. simpl. lia.
  - intros ev Hin. apply failure_tail_In in Hin.
    destruct Hin as (e & _ & ->). now apply H.
Qed.

(** A run that submitted starts with the acknowledgement, the fetch,
    the accepted start write and the submission; nothing is submitted
    after that. *)
Lemma run_submitted_prefix url payload :
  In (Submit url payload) run ->
  exists i rest,
    Submit url payload = Submission src i /\
    run = [Acknowledge recordId; Fetch src recordId;
           Start src w recordId i true; Submission src i] ++ rest /\
    (forall ev, In ev rest -> is_submit ev = false).
Proof.
  intros Hin.
  destruct (run_submitted _ _ _ _ _ Hin)
    as (record & i & T & F & R & V & Es &
        [(e & St & Rb & E) | [(j & e & A & U & Rb & E) | (j & tl & rl & Pl)]]).
  - exists i, (failure_tail src w recordId (Throw e)).
    split; [exact Es |]. split; [exact E |].
    intros ev [<- | []]. reflexivity.
  - exists i, (Persist src w recordId j false :: failure_tail src w recordId (Throw e)).
    split; [exact Es |]. split; [exact E |].
    intros ev [<- | [<- | []]]; reflexivity.
  - pose proof Pl as (_ & _ & _ & L & _ & E).
    exists i, (Persist src w recordId j true :: tl ++
               failure_tail src w recordId (finish rl)).
    split; [exact Es |]. split; [exact E |].
    intros ev [<- | Hev]; [reflexivity |].
    apply in_app_or in Hev. destruct Hev as [Hev | Hev].
    + apply (Loop_in_loop _ _ _ _ _ _ _ _ _ _ L) in Hev.
      destruct ev; try discriminate; reflexivity.
    + apply failure_tail_In in Hev. destruct Hev as (e & _ & ->). reflexivity.
Qed.

Lemma run_counts :
  count is_submit run <= 1 /\ count is_find run <= 1.
Proof.
  destruct (run_inv src w recordId) as [[T E] | (T & tb & rb & Erb & P & E)];
    rewrite E.
  - unfold count. simpl. lia.
  - assert (Tl : forall f r, f (Update AtFailed (table src) recordId [] true) = false ->
                 (forall s tb rid fl acc fl' acc',
                     f (Update s tb rid fl acc) = f (Update s tb rid fl' acc')) ->
                 count f (Acknowledge recordId :: tb ++ failure_tail src w recordId r)
                 = count f [Acknowledge recordId] + count f tb).
    { intros f r H1 H2.
      change (Acknowledge recordId :: tb ++ failure_tail src w recordId r)
        with ([Acknowledge recordId] ++ tb ++ failure_tail src w recordId r).
      rewrite !count_app, failure_tail_count by assumption. lia. }
    rewrite !Tl by reflexivity.
    destruct P as [e N | record i e F R V U | record i e F R V U S
                   | record i jobId e F R V U A J
                   | record i jobId tl rl F R V U A J L];
      rewrite ?count_app;
      try (rewrite (count_none is_submit tl), (count_none is_find tl);
           try (intros ev Hev; apply (Loop_in_loop _ _ _ _ _ _ _ _ _ _ L) in Hev;
                destruct ev; try discriminate; reflexivity));
      unfold count; simpl; lia.
Qed.

End BeforeLoop.

(** X3.  A run fetches the record at most once and submits at most
    one job; the submission comes after the fetch and the accepted
    write of [status = 'Generating...'], and before any check. *)
Theorem at_most_one_submission (src : Source) (w : World) (recordId : value) :
  let run := trace (generate_animation src w recordId) in
  count is_submit run <= 1 /\
  count is_find run <= 1 /\
  (forall pre url payload post,
      run = pre ++ Submit url payload :: post ->
      In (Find (table src) recordId) pre /\
      (exists fields,
          In (Update AtStart (table src) recordId fields true) pre /\
          assoc "status" fields = Some (VStr "Generating...")) /\
      polls pre = 0).
Proof.
  intros run. split; [apply run_counts |]. split; [apply run_counts |].
  intros pre url payload post H.
  assert (Hin : In (Submit url payload) run) by (rewrite H; apply in_elt).
  destruct (run_submitted_prefix _ _ _ _ _ Hin) as (i & rest & Es & E & Hrest).
  unfold run in H. rewrite E in H. simpl in H.
  destruct pre as [| a [| b [| c [| d pre]]]]; simpl in H;
    try (injection H as H; discriminate);
    try (injection H as _ H; discriminate);
    try (injection H as _ _ H; discriminate).
  - injection H as <- <- <- _ _.
    split; [simpl; auto |]. split; [| reflexivity].
    exists (start_fields w (in_mode i) (in_resolution i)).
    split; [simpl; auto | reflexivity].
  - exfalso. injection H as _ _ _ _ H.
    assert (Hs : In (Submit url payload) rest) by (rewrite H; apply in_elt).
    apply Hrest in Hs. discriminate.
Qed.

Lemma at_most_one_submission_witness :
  exists pre post,
    trace (generate_animation server_js Samples.completes Samples.rec_id) =
      pre ++ Submit Samples.submit_url Samples.payload_seed42 :: post /\
    In (Find "animate_generation" Samples.rec_id) pre /\
    polls pre = 0.
Proof.
  exists (firstn 3 (trace (generate_animation server_js Samples.completes
                                                Samples.rec_id))),
         (skipn 4 (trace (generate_animation server_js Samples.completes
                                              Samples.rec_id))).
  assert (E : trace (generate_animation server_js Samples.completes Samples.rec_id) =
              firstn 3 (trace (generate_animation server_js Samples.completes
                                                  Samples.rec_id)) ++
              Submit Samples.submit_url Samples.payload_seed42 ::
              skipn 4 (trace (generate_animation server_js Samples.completes
                                                 Samples.rec_id)))
    by (vm_compute; reflexivity).
  split; [exact E |].
  destruct (at_most_one_submission server_js Samples.completes Samples.rec_id)
    as (_ & _ & H).
  destruct (H _ _ _ _ E) as (Hf & _ & Hp). split; [exact Hf | exact Hp].
Defined.

(** X8.  When the record cannot be fetched, the run consists of the
    acknowledgement, the fetch and the write of [status = 'Failed']
    with the error of the store; nothing is submitted. *)
Theorem record_not_found_fails
        (src : Source) (w : World) (recordId : value) (e : exn) :
  truthy recordId = true ->
  find_result w = Throw e ->
  exists fields,
    trace (generate_animation src w recordId) =
      [ Acknowledge recordId; Find (table src) recordId;
        Update AtFailed (table src) recordId fields
               (is_ok (update_result w AtFailed)) ] /\
    assoc "status" fields = Some (VStr "Failed") /\
    assoc "error_log" fields =
      Some (VStr ("Error: " ^^ message e ^^ LF ^^ "Time: " ^^ iso (clock w Failed))).
Proof.
  intros T F. exists (failed_fields w e).
  split; [| split; reflexivity].
  rewrite (handler_trace _ _ _ T).
  assert (B : background src w recordId = ([Find (table src) recordId], Throw e)).
  { unfold background, find, call. rewrite F. reflexivity. }
  rewrite B. reflexivity.
Qed.

Lemma record_not_found_fails_witness :
  find_result Cases.not_found = Throw (Error "Record not found") /\
  length (trace (generate_animation server_js Cases.not_found Samples.rec_id)) = 3.
Proof.
  split; [reflexivity |].
  destruct (record_not_found_fails server_js Cases.not_found Samples.rec_id
              (Error "Record not found") eq_refl eq_refl) as (fields & -> & _).
  reflexivity.
Defined.

Section StoreRejects.

Variable src : Source.
Variable w : World.
Variable recordId : value.

#[local] Abbreviation run := (trace (generate_animation src w recordId)).
#[local] Abbreviation body := (background src w recordId).

(** The run whose [try] block exits at one of the writes before the
    loop. *)
Lemma run_before_loop site tb rid fields acc e :
  In (Update site tb rid fields acc) run ->
  site = AtStart \/ site = AtJobId ->
  update_result w site = Throw e ->
  result body = Throw e /\
  polls run = 0 /\
  count is_submit run = match site with AtJobId => 1 | _ => 0 end.
Proof.
  intros Hin Hs U.
  destruct (run_inv src w recordId) as [[T E] | (T & tb' & rb & Erb & P & E)];
    rewrite E in *.
  { destruct Hin as [Hin | []]. discriminate. }
  destruct Hin as [Hin | Hin]; [discriminate |].
  apply in_app_or in Hin. destruct Hin as [Hin | Hin].
  2:{ apply failure_tail_In in Hin. destruct Hin as (e' & _ & Hin).
      injection Hin as -> _ _ _ _. destruct Hs; discriminate. }
  rewrite Erb.
  destruct P as [e' N | record i e' F R V U' | record i e' F R V U' S
                 | record i jobId e' F R V U' A J
                 | record i jobId tl rl F R V U' A J L].
  - destruct Hin as [Hin | []]. discriminate.
  - destruct Hin as [Hin | [Hin | []]]; [discriminate |].
    injection Hin as <- _ _ _ _. split; [congruence |]. split; reflexivity.
  - exfalso. destruct Hin as [Hin | [Hin | [Hin | []]]]; try discriminate.
    injection Hin as <- _ _ _ _. congruence.
  - destruct Hin as [Hin | [Hin | [Hin | [Hin | []]]]]; try discriminate.
    + exfalso. injection Hin as <- _ _ _ _. congruence.
    + injection Hin as <- _ _ _ _. split; [congruence |]. split; reflexivity.
  - exfalso. destruct Hin as [Hin | [Hin | [Hin | [Hin | Hin]]]];
      try discriminate.
    + injection Hin as <- _ _ _ _. congruence.
    + injection Hin as <- _ _ _ _. congruence.
    + apply (Loop_in_loop _ _ _ _ _ _ _ _ _ _ L) in Hin.
      destruct Hs as [-> | ->]; discriminate.
Qed.

End StoreRejects.

(** X9.  When the store rejects the write of [status = 'Generating...'],
    the run stops there: no job is submitted and the run ends by
    writing [status = 'Failed'] with the error of the store. *)
Theorem rejected_start_write_aborts
        (src : Source) (w : World) (recordId : value)
        (tb : string) (rid : value) (fields : list (string * value))
        (acc : bool) (e : exn) :
  let run := trace (generate_animation src w recordId) in
  In (Update AtStart tb rid fields acc) run ->
  update_result w AtStart = Throw e ->
  result (background src w recordId) = Throw e /\
  count is_submit run = 0 /\
  ends_Failed src w recordId e run.
Proof.
  intros run Hin U.
  destruct (run_before_loop _ _ _ _ _ _ _ _ _ Hin (or_introl eq_refl) U)
    as (R & _ & S).
  split; [exact R |]. split; [exact S |].
  apply run_ends_Failed; [| exact R].
  destruct (truthy recordId) eqn:T; [reflexivity |].
  exfalso. unfold run in Hin. rewrite (handler_no_record _ _ _ T) in Hin.
  destruct Hin as [Hin | []]. discriminate.
Qed.

Lemma rejected_start_write_aborts_witness :
  update_result Cases.read_only_store AtStart = Throw (Error "403 Forbidden") /\
  count is_submit
    (trace (generate_animation server_js Cases.read_only_store Samples.rec_id)) = 0.
Proof.
  split; [reflexivity |].
  destruct (rejected_start_write_aborts
              server_js Cases.read_only_store Samples.rec_id
              "animate_generation" Samples.rec_id
              (start_fields Cases.read_only_store (VStr "animate") (VStr "480p"))
              false (Error "403 Forbidden"))
    as (_ & S & _); [vm_compute; find_in | reflexivity | exact S].
Defined.

(** X10.  When the store rejects the write of the job id, the job has
    been submitted but is never checked: the run makes no status check
    and ends by writing [status = 'Failed'] with the error of the
    store. *)
Theorem rejected_job_id_write_aborts
        (src : Source) (w : World) (recordId : value)
        (tb : string) (rid : value) (fields : list (string * value))
        (acc : bool) (e : exn) :
  let run := trace (generate_animation src w recordId) in
  In (Update AtJobId tb rid fields acc) run ->
  update_result w AtJobId = Throw e ->
  result (background src w recordId) = Throw e /\
  count is_submit run = 1 /\
  polls run = 0 /\
  ends_Failed src w recordId e run.
Proof.
  intros run Hin U.
  destruct (run_before_loop _ _ _ _ _ _ _ _ _ Hin (or_intror eq_refl) U)
    as (R & P & S).
  split; [exact R |]. split; [exact S |]. split; [exact P |].
  apply run_ends_Failed; [| exact R].
  destruct (truthy recordId) eqn:T; [reflexivity |].
  exfalso. unfold run in Hin. rewrite (handler_no_record _ _ _ T) in Hin.
  destruct Hin as [Hin | []]. discriminate.
Qed.

Lemma rejected_job_id_write_aborts_witness :
  update_result Cases.persist_rejected AtJobId =
    Throw (Error "422 Unknown field job_id") /\
  count is_submit
    (trace (generate_animation server_js Cases.persist_rejected Samples.rec_id)) = 1 /\
  polls (trace (generate_animation server_js Cases.persist_rejected Samples.rec_id))
    = 0.
Proof.
  split; [reflexivity |].
  destruct (rejected_job_id_write_aborts
              server_js Cases.persist_rejected Samples.rec_id
              "animate_generation" Samples.rec_id
              (job_fields Cases.persist_rejected (VStr "job1"))
              false (Error "422 Unknown field job_id"))
    as (_ & S & P & _); [vm_compute; find_in | reflexivity |].
  split; [exact S | exact P].
Defined.

(** ** The payload *)

(** X12.  The job is submitted to the submit URL with the first
    attachment URLs of [input_image] and [input_video], both truthy,
    as [image] and [video]; the payload has the keys [image], [video],
    [mode], [resolution], [seed], and [prompt] last when it has one. *)
Theorem payload_carries_the_inputs
        (src : Source) (w : World) (recordId : value)
        (url : string) (payload : list (string * value)) (record : value) :
  In (Submit url payload) (trace (generate_animation src w recordId)) ->
  find_result w = Ok record ->
  url = submitUrl src /\
  (exists image video,
      first_url record "input_image" = Ok image /\
      first_url record "input_video" = Ok video /\
      truthy image = true /\ truthy video = true /\
      assoc "image" payload = Some image /\
      assoc "video" payload = Some video) /\
  map fst payload =
    ["image"; "video"; "mode"; "resolution"; "seed"] ++
    (if has_key "prompt" payload then ["prompt"] else []).
Proof.
  intros Hin F.
  destruct (run_submitted _ _ _ _ _ Hin)
    as (record' & i & _ & F' & R & [Vi Vv] & Es & _).
  assert (record' = record) as -> by congruence.
  apply Reads_inv in R. destruct R as (Ri & Rv & _).
  injection Es as -> ->. split; [reflexivity |]. split.
  - exists (in_image i), (in_video i).
    unfold submitPayload. destruct (truthy (in_prompt i)); auto 10.
  - unfold submitPayload, has_key.
    destruct (truthy (in_prompt i)); reflexivity.
Qed.

Lemma payload_carries_the_inputs_witness :
  In (Submit Samples.submit_url Samples.payload_dance)
     (trace (generate_animation server_js Samples.refused Samples.rec_id)) /\
  map fst Samples.payload_dance =
    ["image"; "video"; "mode"; "resolution"; "seed"; "prompt"].
Proof.
  assert (Hin : In (Submit Samples.submit_url Samples.payload_dance)
                   (trace (generate_animation server_js Samples.refused
                                              Samples.rec_id))).
  { vm_compute. find_in. }
  split; [exact Hin |].
  destruct (payload_carries_the_inputs
              server_js Samples.refused Samples.rec_id _ _
              Samples.record_dance Hin eq_refl) as (_ & _ & H).
  exact H.
Defined.

(** X13.  [server.js] sends the mode and the resolution of the record,
    or ['animate'] and ['480p'] when they are falsy; [part_000] always
    sends ['animate'] and ['720p'], whatever the record says. *)
Theorem mode_and_resolution_sent
        (src : Source) (w : World) (recordId : value)
        (url : string) (payload : list (string * value))
        (record mode resolution : value) :
  In (Submit url payload) (trace (generate_animation src w recordId)) ->
  find_result w = Ok record ->
  field record "mode" = Ok mode ->
  field record "resolution" = Ok resolution ->
  match src with
  | server_js =>
      assoc "mode" payload = Some (or_else mode (VStr "animate")) /\
      assoc "resolution" payload = Some (or_else resolution (VStr "480p"))
  | part_000 _ =>
      assoc "mode" payload = Some (VStr "animate") /\
      assoc "resolution" payload = Some (VStr "720p")
  end.
Proof.
  intros Hin F Fm Fr.
  destruct (run_submitted _ _ _ _ _ Hin)
    as (record' & i & _ & F' & R & _ & Es & _).
  assert (record' = record) as -> by congruence.
  apply Reads_inv in R. destruct R as (_ & _ & _ & Rm & Rr & _).
  injection Es as _ ->.
  assert (E : forall k, k = "mode" \/ k = "resolution" ->
                assoc k (submitPayload (in_image i) (in_video i) (in_mode i)
                           (in_resolution i) (in_seed i) (in_prompt i)) =
                assoc k [("mode", in_mode i); ("resolution", in_resolution i)]).
  { intros k [-> | ->]; unfold submitPayload;
      destruct (truthy (in_prompt i)); reflexivity. }
  rewrite !E by auto. simpl.
  unfold mode_of, resolution_of, field_or in Rm, Rr.
  destruct src; [rewrite Fm in Rm; rewrite Fr in Rr |];
    injection Rm as <-; injection Rr as <-; split; reflexivity.
Qed.

Lemma mode_and_resolution_sent_witness :
  (exists url payload,
      In (Submit url payload)
         (trace (generate_animation server_js Cases.custom Samples.rec_id)) /\
      assoc "mode" payload = Some (VStr "replace") /\
      assoc "resolution" payload = Some (VStr "720p")) /\
  (exists url payload,
      In (Submit url payload)
         (trace (generate_animation (part_000 Samples.env0) Cases.custom
                                    Samples.rec_id)) /\
      assoc "mode" payload = Some (VStr "animate")).
Proof.
  split.
  - eexists. eexists.
    assert (Hin : In (Submission server_js
                        {| in_image := VStr "http://x/i.png";
                           in_video := VStr "http://x/v.mp4";
                           in_prompt := VStr "";
                           in_mode := VStr "replace";
                           in_resolution := VStr "720p";
                           in_seed := VNum (-1) |})
                     (trace (generate_animation server_js Cases.custom
                                                Samples.rec_id))).
    { vm_compute. find_in. }
    split; [exact Hin |].
    exact (mode_and_resolution_sent server_js Cases.custom Samples.rec_id _ _
             Cases.record_custom (VStr "replace") (VStr "720p")
             Hin eq_refl eq_refl eq_refl).
  - eexists. eexists.
    assert (Hin : In (Submission (part_000 Samples.env0)
                        {| in_image := VStr "http://x/i.png";
                           in_video := VStr "http://x/v.mp4";
                           in_prompt := VStr "";
                           in_mode := VStr "animate";
                           in_resolution := VStr "720p";
                           in_seed := VNum (-1) |})
                     (trace (generate_animation (part_000 Samples.env0) Cases.custom
                                                Samples.rec_id))).
    { vm_compute. find_in. }
    split; [exact Hin |].
    exact (proj1 (mode_and_resolution_sent (part_000 Samples.env0) Cases.custom
                    Samples.rec_id _ _
                    Cases.record_custom (VStr "replace") (VStr "720p")
                    Hin eq_refl eq_refl eq_refl)).
Defined.

(** ** Checks that end the run *)

Section FailingChecks.

Variable src : Source.
Variable w : World.
Variable recordId : value.

#[local] Abbreviation run := (trace (generate_animation src w recordId)).
#[local] Abbreviation body := (background src w recordId).

Lemma Iter_check_fails jobId startTime k t r e :
  Iter src w recordId jobId startTime k t r ->
  In (Check src jobId k) t -> CheckFails w k e ->
  r = Throw e /\
  t = [Sleep 5000; Progress src w recordId jobId startTime k true; Check src jobId k].
Proof.
  intros It Hin Cf.
  inversion It; subst;
    try (simpl in Hin; destruct Hin as [Hin | [Hin | []]]; discriminate);
    inversion Cf; subst; try congruence;
    split; try reflexivity; congruence.
Qed.

Lemma Loop_check_fails jobId startTime a c t r k url e :
  Loop src w recordId jobId startTime a c t r ->
  In (Poll k url) t -> CheckFails w k e ->
  r = Throw e /\ polls t = k - a /\ video_writes t = 0 /\
  count is_download t = 0.
Proof.
  intros L Hin Cf.
  induction L as [a c G | a c t e' G It | a c t c' t' r G It L IH].
  - destruct Hin.
  - pose proof (Iter_In _ _ _ _ _ _ _ _ _ It Hin) as R.
    apply LoopRequest_poll in R. destruct R as (-> & -> & _).
    destruct (Iter_check_fails _ _ _ _ _ _ It Hin Cf) as [E ->].
    split; [exact E |].
    split; [transitivity 1; [reflexivity | lia] |]. split; reflexivity.
  - apply in_app_or in Hin. destruct Hin as [Hin | Hin].
    + pose proof (Iter_In _ _ _ _ _ _ _ _ _ It Hin) as R.
      apply LoopRequest_poll in R. destruct R as (-> & -> & _).
      destruct (Iter_check_fails _ _ _ _ _ _ It Hin Cf) as [E _]. discriminate.
    + destruct (IH Hin) as (-> & Hp & Hv & Hd).
      pose proof (Loop_poll_label _ _ _ _ _ _ _ _ _ _ _ L Hin) as [Hk _].
      destruct c'.
      * apply Loop_completed in L. destruct L as [-> _]. destruct Hin.
      * apply Iter_pending in It. destruct It as (-> & _).
        rewrite polls_app, video_writes_app, count_app, Hp, Hv, Hd.
        split; [reflexivity |].
        split; [change (polls [Sleep 5000;
                               Progress src w recordId jobId startTime (S a) true;
                               Check src jobId (S a)]) with 1; lia |].
        split; reflexivity.
Qed.

Lemma Polled_video_writes i jobId tl rl :
  Polled src w recordId i jobId tl rl -> video_writes run = video_writes tl.
Proof.
  intros (_ & _ & _ & _ & _ & E). rewrite E, !video_writes_app.
  assert (Z : video_writes (failure_tail src w recordId (finish rl)) = 0)
    by (destruct (finish rl); reflexivity).
  rewrite Z. unfold video_writes at 1. simpl. lia.
Qed.

(** A failing check ends the run: its error is the one written with
    [status = 'Failed'], it is the last check, and nothing is written
    to [output_video]. *)
Lemma run_check_fails k url e :
  In (Poll k url) run -> CheckFails w k e ->
  result body = Throw e /\
  ends_Failed src w recordId e run /\
  polls run = k /\
  video_writes run = 0 /\
  count is_download run = 0.
Proof.
  intros Hin Cf.
  destruct (run_polled _ _ _ _ Hin eq_refl) as (i & jobId & tl & rl & Pl & Htl).
  pose proof Pl as (T & _ & _ & L & R & _).
  destruct (Loop_check_fails _ _ _ _ _ _ _ _ _ L Htl Cf) as (-> & Hp & Hv & Hd).
  split; [exact R |]. split; [now apply run_ends_Failed |]. split; [| split].
  - rewrite (Polled_polls _ _ _ _ _ _ _ Pl). lia.
  - now rewrite (Polled_video_writes _ _ _ _ Pl).
  - rewrite (Polled_count _ _ _ _ _ _ _ _ Pl); [exact Hd |].
    intros ev. destruct ev; try reflexivity; discriminate.
Qed.

End FailingChecks.

(** X4.  When a check finds the job failed, the run raises
    ['Generation failed: '] followed by the error of the response, or
    by ['Unknown error'] when it has none; it makes no further check,
    writes no [output_video], and ends by writing [status = 'Failed']
    with that message. *)
Theorem failed_generation_is_reported
        (src : Source) (w : World) (recordId : value)
        (k : nat) (url : string) (res error : value) :
  let run := trace (generate_animation src w recordId) in
  let failure :=
    Error ("Generation failed: " ^^ to_String (or_else error (VStr "Unknown error"))) in
  In (Poll k url) run ->
  poll_result w k = Ok res ->
  data_field res "status" = Ok (VStr "failed") ->
  data_field res "error" = Ok error ->
  result (background src w recordId) = Throw failure /\
  ends_Failed src w recordId failure run /\
  polls run = k /\
  video_writes run = 0.
Proof.
  intros run failure Hin P S E.
  assert (Cf : CheckFails w k failure).
  { now apply (fails_remote w k res (VStr "failed") error). }
  destruct (run_check_fails _ _ _ _ _ _ Hin Cf) as (H1 & H2 & H3 & H4 & _).
  auto.
Qed.

Lemma failed_generation_is_reported_witness :
  In (Poll 2 Samples.poll_url)
     (trace (generate_animation server_js Cases.generation_fails Samples.rec_id)) /\
  result (background server_js Cases.generation_fails Samples.rec_id) =
    Throw (Error "Generation failed: content flagged") /\
  polls (trace (generate_animation server_js Cases.generation_fails Samples.rec_id))
    = 2.
Proof.
  assert (Hin : In (Poll 2 Samples.poll_url)
                   (trace (generate_animation server_js Cases.generation_fails
                                              Samples.rec_id))).
  { vm_compute. find_in. }
  split; [exact Hin |].
  destruct (failed_generation_is_reported
              server_js Cases.generation_fails Samples.rec_id 2 Samples.poll_url
              (Cases.failed_with [("error", VStr "content flagged")])
              (VStr "content flagged") Hin eq_refl eq_refl eq_refl)
    as (R & _ & P & _).
  split; [exact R | exact P].
Defined.

(** X5.  A check whose request fails, or whose body has no readable
    [data] (a [null] body), is fatal: it is not retried nor taken for a
    job still in progress.  The run raises that error, makes no further
    check, and ends by writing [status = 'Failed']. *)
Theorem failed_check_is_fatal
        (src : Source) (w : World) (recordId : value)
        (k : nat) (url : string) (e : exn) :
  let run := trace (generate_animation src w recordId) in
  In (Poll k url) run ->
  poll_result w k = Throw e \/
  (exists res, poll_result w k = Ok res /\ member res "data" = Throw e) ->
  result (background src w recordId) = Throw e /\
  ends_Failed src w recordId e run /\
  polls run = k /\
  video_writes run = 0.
Proof.
  intros run Hin H.
  assert (Cf : CheckFails w k e).
  { destruct H as [H | (res & H & M)].
    - now apply fails_transport.
    - apply (fails_malformed w k res); [exact H |].
      unfold data_field. now rewrite M. }
  destruct (run_check_fails _ _ _ _ _ _ Hin Cf) as (H1 & H2 & H3 & H4 & _).
  auto.
Qed.

Lemma failed_check_is_fatal_witness :
  In (Poll 2 Samples.poll_url)
     (trace (generate_animation server_js Cases.poll_unreachable Samples.rec_id)) /\
  result (background server_js Cases.poll_unreachable Samples.rec_id) =
    Throw (Error "connect ECONNREFUSED") /\
  polls (trace (generate_animation server_js Cases.poll_unreachable Samples.rec_id))
    = 2.
Proof.
  assert (Hin : In (Poll 2 Samples.poll_url)
                   (trace (generate_animation server_js Cases.poll_unreachable
                                              Samples.rec_id))).
  { vm_compute. find_in. }
  split; [exact Hin |].
  destruct (failed_check_is_fatal
              server_js Cases.poll_unreachable Samples.rec_id 2 Samples.poll_url
              (Error "connect ECONNREFUSED") Hin (or_introl eq_refl))
    as (R & _ & P & _).
  split; [exact R | exact P].
Defined.

(** X6.  When a check finds the job completed but the first output is
    missing or falsy, the run raises ['No video URL in completed
    response']: nothing is downloaded, nothing is written to
    [output_video], no further check is made, and the run ends by
    writing [status = 'Failed']. *)
Theorem completed_without_url_fails
        (src : Source) (w : World) (recordId : value)
        (k : nat) (url : string) (res videoUrl : value) :
  let run := trace (generate_animation src w recordId) in
  let failure := Error "No video URL in completed response" in
  In (Poll k url) run ->
  poll_result w k = Ok res ->
  data_field res "status" = Ok (VStr "completed") ->
  first_output res = Ok videoUrl ->
  truthy videoUrl = false ->
  result (background src w recordId) = Throw failure /\
  ends_Failed src w recordId failure run /\
  polls run = k /\
  video_writes run = 0 /\
  count is_download run = 0.
Proof.
  intros run failure Hin P S O T.
  assert (Cf : CheckFails w k failure).
  { now apply (fails_no_url w k res (VStr "completed") videoUrl). }
  exact (run_check_fails _ _ _ _ _ _ Hin Cf).
Qed.

Lemma completed_without_url_fails_witness :
  In (Poll 1 Samples.poll_url)
     (trace (generate_animation server_js Samples.empty_output Samples.rec_id)) /\
  result (background server_js Samples.empty_output Samples.rec_id) =
    Throw (Error "No video URL in completed response").
Proof.
  assert (Hin : In (Poll 1 Samples.poll_url)
                   (trace (generate_animation server_js Samples.empty_output
                                              Samples.rec_id))).
  { vm_compute. find_in. }
  split; [exact Hin |].
  destruct (completed_without_url_fails
              server_js Samples.empty_output Samples.rec_id 1 Samples.poll_url
              (Samples.completed_with [VStr ""]) (VStr "")
              Hin eq_refl eq_refl eq_refl eq_refl)
    as (R & _).
  exact R.
Defined.

(** X14.  Every check of a run asks for the result of the job whose id
    the submission returned: all checks go to the same URL, built from
    that id, and their attempts range between 1 and 120. *)
Theorem checks_target_the_submitted_job
        (src : Source) (w : World) (recordId : value) (k : nat) (url : string) :
  let run := trace (generate_animation src w recordId) in
  In (Poll k url) run ->
  1 <= k <= 120 /\
  (exists jobId, Accepted w jobId /\ url = resultUrl src jobId) /\
  (forall k' url', In (Poll k' url') run -> url' = url).
Proof.
  intros run Hin.
  destruct (run_polled _ _ _ _ Hin eq_refl) as (i & jobId & tl & rl & Pl & Htl).
  pose proof Pl as (_ & _ & A & L & _).
  destruct (Loop_poll_label _ _ _ _ _ _ _ _ _ _ _ L Htl) as [Hk ->].
  split; [unfold maxAttempts in Hk; lia |]. split; [exists jobId; auto |].
  intros k' url' Hin'.
  apply (Polled_loop_In _ _ _ _ _ _ _ _ Pl) in Hin'; [| reflexivity].
  now destruct (Loop_poll_label _ _ _ _ _ _ _ _ _ _ _ L Hin') as [_ ->].
Qed.

Lemma checks_target_the_submitted_job_witness :
  In (Poll 120 Samples.poll_url)
     (trace (generate_animation server_js Samples.never_ends Samples.rec_id)) /\
  forall k' url',
    In (Poll k' url')
       (trace (generate_animation server_js Samples.never_ends Samples.rec_id)) ->
    url' = Samples.poll_url.
Proof.
  assert (Hin : In (Poll 120 Samples.poll_url)
                   (trace (generate_animation server_js Samples.never_ends
                                              Samples.rec_id))).
  { vm_compute. find_in. }
  split; [exact Hin |].
  destruct (checks_target_the_submitted_job
              server_js Samples.never_ends Samples.rec_id 120 Samples.poll_url Hin)
    as (_ & _ & H).
  exact H.
Defined.

(** ** The last write of a run *)

Section LastWrite.

Variable src : Source.
Variable w : World.
Variable recordId : value.

#[local] Abbreviation run := (trace (generate_animation src w recordId)).
#[local] Abbreviation body := (background src w recordId).

Lemma Iter_accepted_completion jobId startTime k t r j tb rid fields :
  Iter src w recordId jobId startTime k t r ->
  In (Update (AtCompleted j) tb rid fields true) t ->
  r = Ok true /\
  exists pre u, t = pre ++ [Completion src w recordId startTime k u true].
Proof.
  intros It Hin.
  assert (D : forall u, ~ In (Update (AtCompleted j) tb rid fields true)
                          (trace (download src w k u))).
  { intros u H. destruct (download_trace src w k u) as [E | [_ E]];
      rewrite E in H; simpl in H; intuition discriminate. }
  inversion It; subst; simpl in Hin;
    try (intuition discriminate).
  - exfalso. destruct Hin as [Hx | [Hx | [Hx | Hx]]]; try discriminate.
    apply in_app_or in Hx. destruct Hx as [Hx | [Hx | []]];
      [now apply D in Hx | discriminate].
  - split; [reflexivity |].
    exists ([Sleep 5000; Progress src w recordId jobId startTime k true;
             Check src jobId k] ++ trace (download src w k videoUrl)), videoUrl.
    now rewrite <- app_assoc.
Qed.

(** Only a loop that ends with [completed] set has an accepted write
    of the output. *)
Lemma Loop_accepted_completion jobId startTime a c t r j tb rid fields :
  Loop src w recordId jobId startTime a c t r ->
  In (Update (AtCompleted j) tb rid fields true) t ->
  r = Ok true.
Proof.
  induction 1 as [a c G | a c t e G It | a c t c' t' r G It L IH]; intros Hin.
  - destruct Hin.
  - destruct (Iter_accepted_completion _ _ _ _ _ _ _ _ _ It Hin) as [E _].
    discriminate.
  - apply in_app_or in Hin. destruct Hin as [Hin | Hin]; [| now apply IH].
    destruct (Iter_accepted_completion _ _ _ _ _ _ _ _ _ It Hin) as [E _].
    injection E as ->. now apply Loop_completed in L.
Qed.

(** A loop that sets [completed] ends with the accepted write of the
    output. *)
Lemma Loop_ends_completed jobId startTime a t :
  Loop src w recordId jobId startTime a false t (Ok true) ->
  exists pre k u, t = pre ++ [Completion src w recordId startTime k u true].
Proof.
  remember false as c eqn:Hc. remember (Ok true) as r eqn:Hr.
  intros L. revert Hc Hr.
  induction L as [a c G | a c t e G It | a c t c' t' r G It L IH];
    intros -> Hr.
  - discriminate.
  - discriminate.
  - destruct c'.
    + apply Loop_completed in L. destruct L as [-> _]. rewrite app_nil_r.
      inversion It; subst.
      exists ([Sleep 5000; Progress src w recordId jobId startTime (S a) true;
               Check src jobId (S a)] ++ trace (download src w (S a) videoUrl)),
             (S a), videoUrl.
      now rewrite <- app_assoc.
    + destruct (IH eq_refl Hr) as (pre & k & u & ->).
      exists (t ++ pre), k, u. now rewrite app_assoc.
Qed.

End LastWrite.

(** X7.  A run that gets past the check of [recordId] ends in one of
    two ways.  Either the [try] block returns: then the last request
    is the accepted write of [status = 'Completed'] and no failure is
    written.  Or it throws: then the last request is the write of
    [status = 'Failed'] and no write of the output was accepted. *)
Theorem run_ends_completed_or_failed
        (src : Source) (w : World) (recordId : value) :
  let run := trace (generate_animation src w recordId) in
  truthy recordId = true ->
  match result (background src w recordId) with
  | Ok _ =>
      (exists pre k fields,
          run = pre ++ [Update (AtCompleted k) (table src) recordId fields true] /\
          assoc "status" fields = Some (VStr "Completed")) /\
      (forall tb rid fields acc, ~ In (Update AtFailed tb rid fields acc) run)
  | Throw e =>
      ends_Failed src w recordId e run /\
      (forall k tb rid fields,
          ~ In (Update (AtCompleted k) tb rid fields true) run)
  end.
Proof.
  intros run T.
  destruct (run_inv src w recordId) as [[T' _] | (_ & tb & rb & Erb & P & E)];
    [congruence |].
  pose proof (run_ends_Failed src w recordId) as EF.
  rewrite Erb in *. unfold run. rewrite E.
  assert (Tail : forall r k tb' rid fields,
             ~ In (Update (AtCompleted k) tb' rid fields true)
                  (failure_tail src w recordId r)).
  { intros r k tb' rid fields H. apply failure_tail_In in H.
    destruct H as (e & _ & H). discriminate. }
  destruct P as [e N | record i e F R V U | record i e F R V U S
                 | record i jobId e F R V U A J
                 | record i jobId tl rl F R V U A J L].
  1-4: split; [rewrite <- E; now apply EF |];
       intros k tb' rid fields H; simpl in H; intuition discriminate.
  destruct rl as [[|] | e]; simpl finish in *.
  - destruct (Loop_ends_completed _ _ _ _ _ _ _ L) as (pre & k & u & ->).
    split.
    + exists (Acknowledge recordId :: [Fetch src recordId; Start src w recordId i true;
                Submission src i; Persist src w recordId jobId true] ++ pre),
        k, (completed_fields src w u (elapsed_at w (ms (clock w LoopStart)) k) k).
      split; [| reflexivity].
      simpl. rewrite app_nil_r. reflexivity.
    + intros tb' rid fields acc H. simpl in H. rewrite app_nil_r in H.
      destruct H as [H | [H | [H | [H | [H | H]]]]]; try discriminate.
      apply (Loop_in_loop _ _ _ _ _ _ _ _ _ _ L) in H. discriminate.
  - split; [rewrite <- E; now apply EF |].
    intros k tb' rid fields H.
    destruct H as [H | H]; [discriminate |].
    apply in_app_or in H. destruct H as [H | H]; [| now apply Tail in H].
    destruct H as [H | [H | [H | [H | H]]]]; try discriminate.
    apply (Loop_accepted_completion _ _ _ _ _ _ _ _ _ _ _ _ _ L) in H.
    discriminate.
  - split; [rewrite <- E; now apply EF |].
    intros k tb' rid fields H.
    destruct H as [H | H]; [discriminate |].
    apply in_app_or in H. destruct H as [H | H]; [| now apply Tail in H].
    destruct H as [H | [H | [H | [H | H]]]]; try discriminate.
    apply (Loop_accepted_completion _ _ _ _ _ _ _ _ _ _ _ _ _ L) in H.
    discriminate.
Qed.

Lemma run_ends_completed_or_failed_witness :
  (result (background server_js Samples.completes Samples.rec_id) = Ok tt /\
   forall tb rid fields acc,
     ~ In (Update AtFailed tb rid fields acc)
          (trace (generate_animation server_js Samples.completes Samples.rec_id))) /\
  (result (background server_js Samples.download_fails Samples.rec_id) =
     Throw (Error "request to http://out/video.mp4 failed") /\
   forall k tb rid fields,
     ~ In (Update (AtCompleted k) tb rid fields true)
          (trace (generate_animation server_js Samples.download_fails
                                     Samples.rec_id))).
Proof.
  split.
  - assert (R : result (background server_js Samples.completes Samples.rec_id) = Ok tt)
      by (vm_compute; reflexivity).
    split; [exact R |].
    pose proof (run_ends_completed_or_failed server_js Samples.completes
                  Samples.rec_id eq_refl) as H.
    rewrite R in H. exact (proj2 H).
  - assert (R : result (background server_js Samples.download_fails Samples.rec_id) =
                Throw (Error "request to http://out/video.mp4 failed"))
      by (vm_compute; reflexivity).
    split; [exact R |].
    pose proof (run_ends_completed_or_failed server_js Samples.download_fails
                  Samples.rec_id eq_refl) as H.
    rewrite R in H. exact (proj2 H).
Defined.

(** ** Time spent waiting, downloads, and the order of the writes *)

Lemma total_sleep_uniform t :
  (forall ms, In (Sleep ms) t -> ms = 5000%Z) ->
  total_sleep t = (5000 * Z.of_nat (count is_sleep t))%Z.
Proof.
  induction t as [| ev t IH]; intros H; [reflexivity |].
  assert (IH' : total_sleep t = (5000 * Z.of_nat (count is_sleep t))%Z).
  { apply IH. intros ms Hin. apply H. now right. }
  destruct ev as [| | | | d | |]; try exact IH'.
  change (total_sleep (Sleep d :: t)) with (d + total_sleep t)%Z.
  change (count is_sleep (Sleep d :: t)) with (S (count is_sleep t)).
  rewrite Nat2Z.inj_succ, IH', (H d (or_introl eq_refl)). lia.
Qed.

Lemma StronglySorted_app {A} (R : A -> A -> Prop) (l1 l2 : list A) :
  StronglySorted R l1 -> StronglySorted R l2 ->
  (forall x y, In x l1 -> In y l2 -> R x y) ->
  StronglySorted R (l1 ++ l2).
Proof.
  induction l1 as [| a l1 IH]; intros S1 S2 H; [exact S2 |].
  inversion S1 as [| ? ? S1' Fa]; subst. simpl. constructor.
  - apply IH; auto. intros x y Hx Hy. apply H; [now right | exact Hy].
  - apply Forall_app. split; [exact Fa |].
    apply Forall_forall. intros y Hy. apply H; [now left | exact Hy].
Qed.

Lemma StronglySorted_lt_NoDup (l : list nat) : StronglySorted lt l -> NoDup l.
Proof.
  induction 1 as [| a l S IH Fa]; constructor; [| exact IH].
  intros Hin. rewrite Forall_forall in Fa. specialize (Fa a Hin). lia.
Qed.

Section LoopMeasures.

Variable src : Source.
Variable w : World.
Variable recordId : value.
Variable jobId : value.
Variable startTime : Z.

#[local] Abbreviation Iter := (Iter src w recordId jobId startTime).
#[local] Abbreviation Loop := (Loop src w recordId jobId startTime).

Lemma download_measures k u :
  count is_sleep (trace (download src w k u)) = 0 /\
  polls (trace (download src w k u)) = 0 /\
  sites (trace (download src w k u)) = [] /\
  count is_download (trace (download src w k u)) <= 1.
Proof.
  destruct (download_trace src w k u) as [E | [_ E]]; rewrite E;
    repeat split; unfold count; simpl; lia.
Qed.

(** An iteration sleeps once; it checks once unless its progress write
    is rejected, and always when it returns. *)
Lemma Iter_sleeps k t r :
  Iter k t r ->
  count is_sleep t = 1 /\ polls t <= 1 /\ (is_ok r = true -> polls t = 1).
Proof.
  intros It.
  inversion It; subst;
    rewrite ?count_app, ?polls_app;
    try (destruct (download_measures k videoUrl) as (-> & -> & _));
    unfold count, polls; simpl; repeat split; try lia; discriminate.
Qed.

Lemma Loop_sleeps a c t r :
  Loop a c t r ->
  count is_sleep t <= maxAttempts - a /\
  polls t <= count is_sleep t <= polls t + 1.
Proof.
  induction 1 as [a c G | a c t e G It | a c t c' t' r G It L IH].
  - unfold count, polls. simpl. lia.
  - apply loop_guard in G. apply Iter_sleeps in It. lia.
  - apply loop_guard in G. apply Iter_sleeps in It.
    destruct It as (S1 & _ & P1). specialize (P1 eq_refl).
    rewrite count_app, polls_app. lia.
Qed.

(** The writes of an iteration: its progress, then perhaps its
    completion. *)
Lemma Iter_sites k t r :
  Iter k t r ->
  sites t = [AtProgress k] \/ sites t = [AtProgress k; AtCompleted k].
Proof.
  intros It.
  inversion It; subst; rewrite ?sites_app;
    try (destruct (download_measures k videoUrl) as (_ & _ & -> & _));
    simpl; auto.
Qed.

Lemma sorted_one (x : nat) : StronglySorted lt [x].
Proof. constructor; constructor. Qed.

Lemma sorted_two (x y : nat) : x < y -> StronglySorted lt [x; y].
Proof.
  intros H. constructor; [apply sorted_one |]. constructor; [exact H | constructor].
Qed.

Lemma Iter_ranks k t r :
  Iter k t r ->
  StronglySorted lt (map site_rank (sites t)) /\
  (forall x, In x (map site_rank (sites t)) -> 2 * k + 1 <= x <= 2 * k + 2).
Proof.
  intros It. destruct (Iter_sites _ _ _ It) as [-> | ->];
    cbn [map site_rank].
  - split; [apply sorted_one |]. intros x [<- | []]. lia.
  - split; [apply sorted_two; lia |]. intros x [<- | [<- | []]]; lia.
Qed.

Lemma Loop_sites a c t r :
  Loop a c t r ->
  StronglySorted lt (map site_rank (sites t)) /\
  (forall x, In x (map site_rank (sites t)) ->
             2 * a + 2 < x <= 2 * maxAttempts + 2).
Proof.
  induction 1 as [a c G | a c t e G It | a c t c' t' r G It L IH].
  - split; [constructor | intros x []].
  - apply loop_guard in G. destruct G as [G _].
    destruct (Iter_ranks _ _ _ It) as [Bs Bb]. split; [exact Bs |].
    intros x Hx. specialize (Bb x Hx). lia.
  - apply loop_guard in G. destruct G as [G _].
    destruct IH as [IHs IHb]. destruct (Iter_ranks _ _ _ It) as [Bs Bb].
    rewrite sites_app, map_app. split.
    + apply StronglySorted_app; auto.
      intros x y Hx Hy. specialize (Bb x Hx). specialize (IHb y Hy). lia.
    + intros x Hx. apply in_app_or in Hx. destruct Hx as [Hx | Hx].
      * specialize (Bb x Hx). lia.
      * specialize (IHb x Hx). lia.
Qed.

Lemma Iter_downloads k t r :
  Iter k t r ->
  count is_download t <= 1 /\ (r = Ok false -> count is_download t = 0).
Proof.
  intros It.
  inversion It; subst; rewrite ?count_app;
    try (pose proof (download_measures k videoUrl) as (_ & _ & _ & D));
    unfold count in *; simpl; split; try lia; try discriminate; reflexivity.
Qed.

Lemma Loop_downloads a c t r : Loop a c t r -> count is_download t <= 1.
Proof.
  induction 1 as [a c G | a c t e G It | a c t c' t' r G It L IH].
  - unfold count. simpl. lia.
  - now apply Iter_downloads in It.
  - rewrite count_app. apply Iter_downloads in It.
    destruct It as [B Z]. destruct c'.
    + apply Loop_completed in L. destruct L as [-> _].
      unfold count at 2. simpl. lia.
    + rewrite (Z eq_refl). simpl. exact IH.
Qed.

(** In [server.js] the write of the output follows the successful
    download of that output. *)
Lemma Iter_completion_downloaded k t r j tb rid fields acc :
  Iter k t r -> src = server_js ->
  In (Update (AtCompleted j) tb rid fields acc) t ->
  j = k /\ download_result w k = Ok tt /\
  exists u, In (Download u) t /\
            assoc "output_video" fields = Some (VArr [VObj [("url", u)]]).
Proof.
  intros It Hs Hin.
  assert (D : forall u, result (download src w k u) = Ok tt ->
                        download_result w k = Ok tt /\
                        trace (download src w k u) = [Download u]).
  { intros u H. unfold download in *. rewrite Hs in *. auto. }
  inversion It; subst src; subst; simpl in Hin;
    try (intuition discriminate);
    (destruct (D videoUrl) as [Dr Dt]; [assumption |];
     rewrite Dt in *; simpl in Hin;
     destruct Hin as [Hx | [Hx | [Hx | [Hx | [Hx | []]]]]]; try discriminate;
     injection Hx as <- _ _ <- _; split; [reflexivity |]; split; [exact Dr |];
     exists videoUrl; split; [simpl; auto | reflexivity]).
Qed.

Lemma Loop_completion_downloaded a c t r j tb rid fields acc :
  Loop a c t r -> src = server_js ->
  In (Update (AtCompleted j) tb rid fields acc) t ->
  download_result w j = Ok tt /\
  exists u, In (Download u) t /\
            assoc "output_video" fields = Some (VArr [VObj [("url", u)]]).
Proof.
  intros L Hs. induction L as [a c G | a c t e G It | a c t c' t' r G It L IH];
    intros Hin.
  - destruct Hin.
  - destruct (Iter_completion_downloaded _ _ _ _ _ _ _ _ It Hs Hin)
      as (-> & Dr & H). auto.
  - apply in_app_or in Hin. destruct Hin as [Hin | Hin].
    + destruct (Iter_completion_downloaded _ _ _ _ _ _ _ _ It Hs Hin)
        as (-> & Dr & u & Hu & Hf).
      split; [exact Dr |]. exists u. split; [apply in_or_app; now left | exact Hf].
    + destruct (IH Hin) as (Dr & u & Hu & Hf).
      split; [exact Dr |]. exists u. split; [apply in_or_app; now right | exact Hf].
Qed.

End LoopMeasures.

Section RunMeasures.

Variable src : Source.
Variable w : World.
Variable recordId : value.

#[local] Abbreviation run := (trace (generate_animation src w recordId)).

(** A run that did not enter the loop neither sleeps, checks nor
    downloads. *)
Lemma run_loop_or_not :
  (polls run = 0 /\ count is_sleep run = 0 /\ count is_download run = 0) \/
  exists i jobId tl rl, Polled src w recordId i jobId tl rl.
Proof.
  destruct (Nat.eq_dec (polls run + count is_sleep run + count is_download run) 0)
    as [Z | Z]; [left; lia | right].
  assert (H : exists ev, In ev run /\ in_loop ev = true).
  { destruct (Nat.eq_dec (polls run) 0) as [Zp | Zp].
    - destruct (Nat.eq_dec (count is_sleep run) 0) as [Zs | Zs].
      + destruct (count_some is_download run) as (ev & Hin & F); [lia |].
        exists ev. split; [exact Hin |]. destruct ev; try discriminate; reflexivity.
      + destruct (count_some is_sleep run) as (ev & Hin & F); [lia |].
        exists ev. split; [exact Hin |]. destruct ev; try discriminate; reflexivity.
    - destruct (polls_some run) as (k & url & Hin); [lia |].
      exists (Poll k url). auto. }
  destruct H as (ev & Hin & Hl).
  destruct (run_polled _ _ _ _ Hin Hl) as (i & jobId & tl & rl & Pl & _).
  exists i, jobId, tl, rl. exact Pl.
Qed.

Lemma run_sleep_is_5000 d : In (Sleep d) run -> d = 5000%Z.
Proof.
  intros Hin.
  destruct (run_polled _ _ _ _ Hin eq_refl) as (i & jobId & tl & rl & Pl & Htl).
  destruct Pl as (_ & _ & _ & L & _).
  destruct (Loop_In _ _ _ _ _ _ _ _ _ _ L Htl) as (k & _ & R).
  destruct R as [H | [H | [[H _] | (u & _ & [[H _] | H])]]]; try discriminate.
  now injection H as ->.
Qed.

Lemma failure_tail_sites r :
  sites (failure_tail src w recordId r) = [] \/
  sites (failure_tail src w recordId r) = [AtFailed].
Proof. destruct r; simpl; auto. Qed.

Lemma Path_sites tb rb :
  Path src w recordId tb rb ->
  StronglySorted lt (map site_rank (sites tb)) /\
  (forall x, In x (map site_rank (sites tb)) -> x <= 2 * maxAttempts + 2).
Proof.
  intros P.
  destruct P as [e N | record i e F R V U | record i e F R V U S
                 | record i jobId e F R V U A J
                 | record i jobId tl rl F R V U A J L].
  - split; [constructor | intros x []].
  - split; [apply sorted_one | intros x [<- | []]; simpl; lia].
  - split; [apply sorted_one | intros x [<- | []]; simpl; lia].
  - split; [apply sorted_two; simpl; lia |].
    intros x [<- | [<- | []]]; simpl; lia.
  - destruct (Loop_sites _ _ _ _ _ _ _ _ _ L) as [Ls Lb].
    rewrite sites_app, map_app. split.
    + apply StronglySorted_app; [apply sorted_two; simpl; lia | exact Ls |].
      intros x y [<- | [<- | []]] Hy; specialize (Lb y Hy); simpl; lia.
    + intros x Hx. apply in_app_or in Hx.
      destruct Hx as [[<- | [<- | []]] | Hx]; try (simpl; lia).
      specialize (Lb x Hx). lia.
Qed.

End RunMeasures.

(** X11.  A run sleeps at most 120 times, 5 seconds each time, hence
    ten minutes at most; it sleeps once before each check, and once
    more when the progress write that follows the sleep is rejected. *)
Theorem waiting_is_bounded (src : Source) (w : World) (recordId : value) :
  let run := trace (generate_animation src w recordId) in
  count is_sleep run <= 120 /\
  (forall d, In (Sleep d) run -> d = 5000%Z) /\
  (total_sleep run <= 600000)%Z /\
  polls run <= count is_sleep run <= polls run + 1.
Proof.
  intros run.
  assert (B : count is_sleep run <= 120 /\
              polls run <= count is_sleep run <= polls run + 1).
  { destruct (run_loop_or_not src w recordId)
      as [(Zp & Zs & _) | (i & jobId & tl & rl & Pl)].
    - unfold run. lia.
    - unfold run. rewrite (Polled_polls _ _ _ _ _ _ _ Pl).
      rewrite (Polled_count _ _ _ is_sleep _ _ _ _ Pl)
        by (intros ev; destruct ev; try reflexivity; discriminate).
      destruct Pl as (_ & _ & _ & L & _).
      apply Loop_sleeps in L. unfold maxAttempts in L. lia. }
  destruct B as [B1 B2]. split; [exact B1 |].
  split; [apply run_sleep_is_5000 |]. split; [| exact B2].
  unfold run. rewrite total_sleep_uniform by apply run_sleep_is_5000.
  fold run. lia.
Qed.

(** X16.  A run downloads at most one video, and [part_000] none; in
    [server.js] the output is written only once its download has
    succeeded, and what is written is the URL that was downloaded. *)
Theorem output_is_downloaded_first (src : Source) (w : World) (recordId : value) :
  let run := trace (generate_animation src w recordId) in
  count is_download run <= 1 /\
  (forall env, src = part_000 env -> count is_download run = 0) /\
  (src = server_js ->
   forall k tb rid fields acc,
     In (Update (AtCompleted k) tb rid fields acc) run ->
     download_result w k = Ok tt /\
     exists u, In (Download u) run /\
               assoc "output_video" fields = Some (VArr [VObj [("url", u)]])).
Proof.
  intros run. split; [| split].
  - destruct (run_loop_or_not src w recordId)
      as [(_ & _ & Zd) | (i & jobId & tl & rl & Pl)]; [unfold run; lia |].
    unfold run. rewrite (Polled_count _ _ _ is_download _ _ _ _ Pl)
      by (intros ev; destruct ev; try reflexivity; discriminate).
    destruct Pl as (_ & _ & _ & L & _). now apply Loop_downloads in L.
  - intros env Hs. apply count_none. intros ev Hin.
    destruct ev; try reflexivity. exfalso.
    destruct (run_polled _ _ _ _ Hin eq_refl) as (i & jobId & tl & rl & Pl & Htl).
    destruct Pl as (_ & _ & _ & L & _).
    destruct (Loop_In _ _ _ _ _ _ _ _ _ _ L Htl) as (k & _ & R).
    destruct R as [H | [H | [[H _] | (u & _ & [[H Hs'] | H])]]];
      try discriminate. congruence.
  - intros Hs k tb rid fields acc Hin.
    destruct (run_polled _ _ _ _ Hin eq_refl) as (i & jobId & tl & rl & Pl & Htl).
    pose proof Pl as (_ & _ & _ & L & _).
    destruct (Loop_completion_downloaded _ _ _ _ _ _ _ _ _ _ _ _ _ _ L Hs Htl)
      as (Dr & u & Hu & Hf).
    split; [exact Dr |]. exists u. split; [| exact Hf].
    now apply (Polled_In _ _ _ _ _ _ _ _ Pl).
Qed.

Lemma output_is_downloaded_first_witness :
  count is_download
    (trace (generate_animation (part_000 Samples.env0) Samples.completes
                               Samples.rec_id)) = 0 /\
  exists u,
    In (Download u)
       (trace (generate_animation server_js Samples.completes Samples.rec_id)).
Proof.
  split.
  - destruct (output_is_downloaded_first (part_000 Samples.env0) Samples.completes
                Samples.rec_id) as (_ & H & _).
    exact (H Samples.env0 eq_refl).
  - destruct (output_is_downloaded_first server_js Samples.completes Samples.rec_id)
      as (_ & _ & H).
    destruct (H eq_refl 1 "animate_generation" Samples.rec_id
                (completed_fields server_js Samples.completes
                                  (VStr "http://out/video.mp4") 5 1) true)
      as (_ & u & Hu & _); [vm_compute; find_in |].
    exists u. exact Hu.
Defined.

(** X17.  The writes of a run follow the life of the record: the
    start, the job id, then for each attempt its progress and perhaps
    its completion, and the failure last.  No site is written twice,
    and nothing is written after the failure. *)
Theorem writes_follow_the_life_of_the_record
        (src : Source) (w : World) (recordId : value) :
  let run := trace (generate_animation src w recordId) in
  StronglySorted lt (map site_rank (sites run)) /\
  NoDup (sites run).
Proof.
  intros run.
  assert (S : StronglySorted lt (map site_rank (sites run))).
  { unfold run.
    destruct (run_inv src w recordId) as [[T E] | (T & tb & rb & Erb & P & E)];
      rewrite E.
    - constructor.
    - change (Acknowledge recordId :: tb ++ failure_tail src w recordId rb)
        with ([Acknowledge recordId] ++ tb ++ failure_tail src w recordId rb).
      rewrite !sites_app. simpl. rewrite map_app.
      destruct (Path_sites _ _ _ _ _ P) as [Ps Pb].
      apply StronglySorted_app; [exact Ps | |].
      + destruct (failure_tail_sites src w recordId rb) as [-> | ->];
          [constructor | apply sorted_one].
      + intros x y Hx Hy. specialize (Pb x Hx).
        destruct (failure_tail_sites src w recordId rb) as [Ef | Ef];
          rewrite Ef in Hy; simpl in Hy; [destruct Hy |].
        destruct Hy as [<- | []]. unfold site_rank, maxAttempts in *. lia. }
  split; [exact S |].
  apply StronglySorted_lt_NoDup in S. now apply NoDup_map_inv in S.
Qed.

Example writes_of_a_failed_download :
  sites (trace (generate_animation server_js Samples.download_fails Samples.rec_id))
  = [AtStart; AtJobId; AtProgress 1; AtFailed].
Proof. vm_compute. reflexivity. Qed.

(** ** Reading the record *)

Section Reading.

Variable src : Source.

Lemma member_total o k : nullish o = false -> exists v, member o k = Ok v.
Proof. destruct o; simpl; intros H; try discriminate; eauto. Qed.

Lemma element_total o n : nullish o = false -> exists v, element o n = Ok v.
Proof. destruct o; simpl; intros H; try discriminate; eauto. Qed.

Lemma opt_member_total o k : exists v, opt_member o k = Ok v.
Proof.
  unfold opt_member. destruct (nullish o) eqn:N; [eauto |].
  now apply member_total.
Qed.

Lemma opt_element_total o n : exists v, opt_element o n = Ok v.
Proof.
  unfold opt_element. destruct (nullish o) eqn:N; [eauto |].
  now apply element_total.
Qed.

(** Once [record.fields] is an object, no read of the record throws. *)
Lemma read_inputs_total record fields :
  member record "fields" = Ok fields -> nullish fields = false ->
  exists i, read_inputs src record = Ok i.
Proof.
  intros M N.
  assert (Fd : forall name, exists v, field record name = Ok v).
  { intros name. unfold field. rewrite M. now apply member_total. }
  assert (Fu : forall name, exists v, first_url record name = Ok v).
  { intros name. unfold first_url. destruct (Fd name) as (a & ->).
    destruct (opt_element_total a 0) as (b & ->). apply opt_member_total. }
  assert (Fo : forall name d, exists v, field_or record name d = Ok v).
  { intros name d. unfold field_or. destruct (Fd name) as (a & ->). eauto. }
  unfold read_inputs.
  destruct (Fu "input_image") as (a & ->). destruct (Fu "input_video") as (b & ->).
  destruct (Fo "prompt" (VStr "")) as (c & ->).
  assert (Hm : exists v, mode_of src record = Ok v).
  { unfold mode_of. destruct src; [apply Fo | eauto]. }
  assert (Hr : exists v, resolution_of src record = Ok v).
  { unfold resolution_of. destruct src; [apply Fo | eauto]. }
  destruct Hm as (d & ->). destruct Hr as (e & ->).
  destruct (Fo "seed" (VNum (-1))) as (f & ->). eauto.
Qed.

End Reading.

(** X18.  For a record whose [fields] is an object, reading the inputs
    never throws, whatever the attachment fields hold.  A falsy image
    URL is reported as ['No input image found'], also when the video is
    missing too; a falsy video URL as ['No input video found']; with
    both URLs the run goes on to its first write. *)
Theorem missing_input_is_named
        (src : Source) (w : World) (recordId record fields : value) :
  let run := trace (generate_animation src w recordId) in
  truthy recordId = true ->
  find_result w = Ok record ->
  member record "fields" = Ok fields ->
  nullish fields = false ->
  exists image video,
    first_url record "input_image" = Ok image /\
    first_url record "input_video" = Ok video /\
    (truthy image = false ->
     result (background src w recordId) = Throw (Error "No input image found")) /\
    (truthy image = true -> truthy video = false ->
     result (background src w recordId) = Throw (Error "No input video found")) /\
    (truthy image = true -> truthy video = true ->
     exists fields' acc, In (Update AtStart (table src) recordId fields' acc) run).
Proof.
  intros run T F M N.
  destruct (read_inputs_total src record fields M N) as (i & R).
  pose proof (Reads_inv _ _ _ R) as (Ri & Rv & _).
  exists (in_image i), (in_video i). split; [exact Ri |]. split; [exact Rv |].
  destruct (run_inv src w recordId) as [[T' _] | (_ & tb & rb & Erb & P & E)];
    [congruence |].
  assert (Same : forall record' i', find_result w = Ok record' ->
                                    Reads src record' i' -> i' = i).
  { intros record' i' F' R'. assert (record' = record) as -> by congruence.
    unfold Reads in R'. congruence. }
  rewrite Erb. unfold run. rewrite E.
  destruct P as [e Ni | record' i' e F' R' [Vi Vv] U
                 | record' i' e F' R' [Vi Vv] U S
                 | record' i' jobId e F' R' [Vi Vv] U A J
                 | record' i' jobId tl rl F' R' [Vi Vv] U A J L].
  - inversion Ni as [e' Fe | record' e' F' Re | record' i' F' R' Ti
                     | record' i' F' R' Ti Tv]; subst.
    + congruence.
    + assert (record' = record) as -> by congruence. congruence.
    + rewrite (Same _ _ F' R') in Ti. repeat split; congruence.
    + rewrite (Same _ _ F' R') in Ti, Tv. repeat split; congruence.
  - rewrite (Same _ _ F' R') in *. repeat split; try congruence.
    intros _ _. eexists. eexists. right. right. left. reflexivity.
  - rewrite (Same _ _ F' R') in *. repeat split; try congruence.
    intros _ _. eexists. eexists. right. right. left. reflexivity.
  - rewrite (Same _ _ F' R') in *. repeat split; try congruence.
    intros _ _. eexists. eexists. right. right. left. reflexivity.
  - rewrite (Same _ _ F' R') in *. repeat split; try congruence.
    intros _ _. eexists. eexists. right. right. left. reflexivity.
Qed.

Lemma missing_input_is_named_witness :
  member Cases.record_empty "fields" = Ok (VObj []) /\
  result (background server_js Cases.no_inputs Samples.rec_id) =
    Throw (Error "No input image found").
Proof.
  split; [reflexivity |].
  destruct (missing_input_is_named server_js Cases.no_inputs Samples.rec_id
              Cases.record_empty (VObj []) eq_refl eq_refl eq_refl eq_refl)
    as (image & video & Ri & _ & H & _).
  apply H. vm_compute in Ri. now injection Ri as <-.
Defined.

(** ** The health check *)

Lemma append_assoc (a b c : string) : (a ^^ b) ^^ c = a ^^ (b ^^ c).
Proof. induction a as [| ch a IH]; simpl; [reflexivity | now rewrite IH]. Qed.

(** X15.  The health check of [part_000] answers with status 200 and
    reports the configuration the handler really uses: every store
    request of a run names the reported table, the job is submitted to
    the reported submit URL, and every check goes to the reported
    result URL followed by the job id and [/result]. *)
Theorem health_reports_the_configuration
        (env : Env) (now : Date) (w : World) (recordId : value) :
  exists body config tb submit results,
    health (part_000 env) now = ([Respond 200 body], Ok tt) /\
    member body "config" = Ok config /\
    member config "table" = Ok (VStr tb) /\
    member config "submitUrl" = Ok (VStr submit) /\
    member config "resultUrl" = Ok (VStr results) /\
    forall ev,
      In ev (trace (generate_animation (part_000 env) w recordId)) ->
      (forall t, table_of ev = Some t -> t = tb) /\
      (forall url payload, ev = Submit url payload -> url = submit) /\
      (forall k url, ev = Poll k url ->
         exists jobId, Accepted w jobId /\
                       url = results ^^ "/" ^^ to_String jobId ^^ "/result").
Proof.
  eexists. eexists. eexists. eexists. eexists.
  split; [reflexivity |]. split; [reflexivity |].
  split; [reflexivity |]. split; [reflexivity |]. split; [reflexivity |].
  intros ev Hin. split; [| split].
  - intros t Ht.
    destruct (run_In _ _ _ _ Hin)
      as [R | [(e & _ & ->) | [-> | [(i & ->) | [(i & -> & _) | [(j & -> & _) | L]]]]]].
    + destruct ev; discriminate.
    + now injection Ht as <-.
    + now injection Ht as <-.
    + now injection Ht as <-.
    + discriminate.
    + now injection Ht as <-.
    + destruct (run_polled _ _ _ _ Hin L) as (i & jobId & tl & rl & Pl & Htl).
      destruct Pl as (_ & _ & _ & Lp & _).
      destruct (Loop_In _ _ _ _ _ _ _ _ _ _ Lp Htl) as (k & _ & R).
      destruct ev; try discriminate.
      apply LoopRequest_update in R. destruct R as (-> & _).
      now injection Ht as <-.
  - intros url payload ->.
    destruct (run_submitted _ _ _ _ _ Hin) as (record & i & _ & _ & _ & _ & Es & _).
    now injection Es as -> _.
  - intros k url ->.
    destruct (run_polled _ _ _ _ Hin eq_refl) as (i & jobId & tl & rl & Pl & Htl).
    pose proof Pl as (_ & _ & A & L & _).
    destruct (Loop_poll_label _ _ _ _ _ _ _ _ _ _ _ L Htl) as [_ ->].
    exists jobId. split; [exact A |].
    unfold resultUrl, base_url. now rewrite !append_assoc.
Qed.

(** ** The run that succeeds *)

Section Success.

Variable src : Source.
Variable w : World.
Variable recordId : value.

#[local] Abbreviation run := (trace (generate_animation src w recordId)).
#[local] Abbreviation body := (background src w recordId).

Lemma Iter_reaches_check jobId startTime k t r :
  Iter src w recordId jobId startTime k t r ->
  update_result w (AtProgress k) = Ok tt ->
  In (Check src jobId k) t.
Proof.
  intros It U. inversion It; subst; try congruence; simpl; auto.
Qed.

Lemma Iter_completes jobId startTime k t r u :
  Iter src w recordId jobId startTime k t r ->
  update_result w (AtProgress k) = Ok tt ->
  update_result w (AtCompleted k) = Ok tt ->
  Succeeds w k u -> result (download src w k u) = Ok tt ->
  r = Ok true /\
  exists pre, t = pre ++ [Completion src w recordId startTime k u true].
Proof.
  intros It Up Uc (res & status & P & S & C & O & T) D.
  inversion It; subst; try congruence.
  - exfalso. unfold download, call in D. simpl in D. congruence.
  - assert (videoUrl = u) as -> by congruence.
    split; [reflexivity |].
    exists ([Sleep 5000; Progress src w recordId jobId startTime k true;
             Check src jobId k] ++ trace (download src w k u)).
    now rewrite <- app_assoc.
Qed.

(** With a store that accepts every write, a loop whose checks before
    [k] see a job in progress and whose check [k] sees it completed
    ends at attempt [k] with the write of the output. *)
Lemma Loop_completes_at jobId startTime k u a c t r :
  Loop src w recordId jobId startTime a c t r ->
  c = false -> a < k <= maxAttempts ->
  (forall site, update_result w site = Ok tt) ->
  (forall j, a < j < k -> nonterminal (poll_result w j)) ->
  Succeeds w k u -> result (download src w k u) = Ok tt ->
  r = Ok true /\ polls t = k - a /\
  exists pre, t = pre ++ [Completion src w recordId startTime k u true].
Proof.
  intros L. induction L as [a c G | a c t e G It | a c t c' t' r G It L IH];
    intros -> Hk U Hn Sc D.
  - exfalso. rewrite andb_true_r in G. apply Nat.ltb_ge in G. lia.
  - exfalso. pose proof (Iter_reaches_check _ _ _ _ _ It (U _)) as Hin.
    destruct (Nat.eq_dec (S a) k) as [<- | Ne].
    + destruct (Iter_completes _ _ _ _ _ _ It (U _) (U _) Sc D) as [E _].
      discriminate.
    + assert (Hj : a < S a < k) by lia.
      pose proof (Iter_nonterminal _ _ _ _ _ _ _ _ It Hin (Hn _ Hj)).
      discriminate.
  - pose proof (Iter_reaches_check _ _ _ _ _ It (U _)) as Hin.
    destruct (Nat.eq_dec (S a) k) as [<- | Ne].
    + destruct (Iter_completes _ _ _ _ _ _ It (U _) (U _) Sc D)
        as [E (pre & ->)].
      injection E as ->. apply Loop_completed in L. destruct L as [-> ->].
      rewrite app_nil_r. split; [reflexivity |]. split; [| eauto].
      pose proof (Iter_sleeps _ _ _ _ _ _ _ _ It) as (_ & _ & P1).
      rewrite (P1 eq_refl). lia.
    + assert (Hj : a < S a < k) by lia.
      pose proof (Iter_nonterminal _ _ _ _ _ _ _ _ It Hin (Hn _ Hj)) as E.
      injection E as ->.
      destruct IH as (-> & Hp & pre & ->); auto; try lia.
      { intros j Hj'. apply Hn. lia. }
      split; [reflexivity |]. split.
      * pose proof (Iter_sleeps _ _ _ _ _ _ _ _ It) as (_ & _ & P1).
        rewrite polls_app, (P1 eq_refl), Hp. lia.
      * exists (t ++ pre). now rewrite app_assoc.
Qed.

End Success.

(** X19.  When the record has both inputs, the store accepts every
    write, the submission returns a job id, the checks before the
    [k]-th see a job still in progress and the [k]-th sees it completed
    with a usable output (whose download succeeds, in [server.js]),
    the run makes exactly [k] checks, its [try] block returns, and its
    last request is the accepted write of that output with
    [status = 'Completed']. *)
Theorem successful_run
        (src : Source) (w : World) (recordId record : value)
        (i : Inputs) (jobId videoUrl : value) (k : nat) :
  let run := trace (generate_animation src w recordId) in
  truthy recordId = true ->
  find_result w = Ok record ->
  read_inputs src record = Ok i ->
  truthy (in_image i) = true -> truthy (in_video i) = true ->
  (forall site, update_result w site = Ok tt) ->
  Accepted w jobId ->
  1 <= k <= 120 ->
  (forall j, 1 <= j < k -> nonterminal (poll_result w j)) ->
  Succeeds w k videoUrl ->
  (src = server_js -> download_result w k = Ok tt) ->
  result (background src w recordId) = Ok tt /\
  polls run = k /\
  exists pre fields,
    run = pre ++ [Update (AtCompleted k) (table src) recordId fields true] /\
    assoc "output_video" fields = Some (output_video_of src videoUrl) /\
    assoc "status" fields = Some (VStr "Completed").
Proof.
  intros run T F R Ti Tv U A Hk Hn S Dl.
  assert (D : result (download src w k videoUrl) = Ok tt).
  { unfold download. destruct src; [| reflexivity].
    unfold call. simpl. now apply Dl. }
  destruct (run_inv src w recordId) as [[T' _] | (_ & tb & rb & Erb & P & E)];
    [congruence |].
  assert (Same : forall record' i', find_result w = Ok record' ->
                                    Reads src record' i' -> i' = i).
  { intros record' i' F' R'. assert (record' = record) as -> by congruence.
    unfold Reads in R'. congruence. }
  destruct P as [e Ni | record' i' e F' R' V U' | record' i' e F' R' V U' St
                 | record' i' j e F' R' V U' A' J
                 | record' i' j tl rl F' R' V U' A' J L].
  - exfalso.
    inversion Ni as [e' Fe | record' e' F' Re | record' i' F' R' Ti'
                     | record' i' F' R' Ti' Tv']; subst.
    + congruence.
    + assert (record' = record) as -> by congruence. congruence.
    + rewrite (Same _ _ F' R') in Ti'. congruence.
    + rewrite (Same _ _ F' R') in Tv'. congruence.
  - exfalso. rewrite U in U'. discriminate.
  - exfalso. exact (Accepted_not_stops _ _ _ A St).
  - exfalso. rewrite U in J. discriminate.
  - rewrite (Accepted_unique _ _ _ A' A) in *.
    assert (Hk' : 0 < k <= maxAttempts) by (unfold maxAttempts; lia).
    assert (Hn' : forall j0, 0 < j0 < k -> nonterminal (poll_result w j0))
      by (intros j0 Hj; apply Hn; lia).
    destruct (Loop_completes_at _ _ _ _ _ k videoUrl _ _ _ _ L eq_refl Hk' U Hn' S D)
      as (-> & Hp & pre & ->).
    split; [exact Erb |]. unfold run. rewrite E. split.
    + simpl. unfold polls in *. simpl. rewrite app_nil_r. rewrite Hp. lia.
    + exists (Acknowledge recordId ::
              [Fetch src recordId; Start src w recordId i' true;
               Submission src i'; Persist src w recordId jobId true] ++ pre),
        (completed_fields src w videoUrl
           (elapsed_at w (ms (clock w LoopStart)) k) k).
      split; [| split; reflexivity].
      simpl. rewrite app_nil_r. reflexivity.
Qed.

Lemma successful_run_witness :
  Succeeds Cases.completes_third 3 (VStr "http://out/video.mp4") /\
  result (background server_js Cases.completes_third Samples.rec_id) = Ok tt /\
  polls (trace (generate_animation server_js Cases.completes_third Samples.rec_id))
    = 3.
Proof.
  assert (S : Succeeds Cases.completes_third 3 (VStr "http://out/video.mp4")).
  { eexists. eexists. repeat split. }
  split; [exact S |].
  destruct (successful_run
              server_js Cases.completes_third Samples.rec_id Samples.record_seed42
              {| in_image := VStr "http://x/i.png";
                 in_video := VStr "http://x/v.mp4";
                 in_prompt := VStr "";
                 in_mode := VStr "animate";
                 in_resolution := VStr "480p";
                 in_seed := VNum 42 |}
              (VStr "job1") (VStr "http://out/video.mp4") 3)
    as (R & P & _); try reflexivity; try exact S.
  - eexists. eexists. repeat split.
  - lia.
  - intros j Hj. exists Samples.processing, (VStr "processing").
    assert (j = 1 \/ j = 2) as [-> | ->] by lia; repeat split.
  - split; [exact R | exact P].
Defined.

(** ** The job id *)

(** X20.  A run writes [job_id] at most once, in the write that
    follows the submission, and what it writes is the id the
    submission returned. *)
Theorem job_id_is_written_once (src : Source) (w : World) (recordId : value) :
  let run := trace (generate_animation src w recordId) in
  count writes_job_id run <= 1 /\
  (forall site tb rid fields acc,
      In (Update site tb rid fields acc) run ->
      has_key "job_id" fields = true ->
      site = AtJobId /\
      exists jobId, Accepted w jobId /\ assoc "job_id" fields = Some jobId).
Proof.
  intros run.
  assert (Hl : forall i jobId tl rl ev,
             Polled src w recordId i jobId tl rl -> In ev tl ->
             writes_job_id ev = false).
  { intros i jobId tl rl ev (_ & _ & _ & L & _) Hin.
    destruct (Loop_In _ _ _ _ _ _ _ _ _ _ L Hin) as (k & _ & R).
    destruct ev; try reflexivity.
    apply LoopRequest_update in R.
    destruct R as (_ & _ & _ & [[_ ->] | (u & _ & _ & ->)]); reflexivity. }
  split.
  - destruct (run_inv src w recordId) as [[T E] | (T & tb & rb & Erb & P & E)];
      unfold run; rewrite E; [unfold count; simpl; lia |].
    assert (Tl : count writes_job_id (failure_tail src w recordId rb) = 0)
      by (destruct rb; reflexivity).
    change (Acknowledge recordId :: tb ++ failure_tail src w recordId rb)
      with ([Acknowledge recordId] ++ tb ++ failure_tail src w recordId rb).
    rewrite !count_app, Tl.
    destruct P as [e N | record i e F R V U | record i e F R V U S
                   | record i jobId e F R V U A J
                   | record i jobId tl rl F R V U A J L];
      try (unfold count; simpl; lia).
    rewrite count_app, (count_none writes_job_id tl); [unfold count; simpl; lia |].
    intros ev Hin. destruct (Loop_In _ _ _ _ _ _ _ _ _ _ L Hin) as (k & _ & Rq).
    destruct ev; try reflexivity.
    apply LoopRequest_update in Rq.
    destruct Rq as (_ & _ & _ & [[_ ->] | (u & _ & _ & ->)]); reflexivity.
  - intros site tb rid fields acc Hin Hk.
    destruct (run_In _ _ _ _ Hin)
      as [R | [(e & _ & H) | [H | [(i & H) | [(i & H & _) | [(j & H & A) | L]]]]]];
      try discriminate.
    + injection H as -> -> -> -> _. discriminate.
    + injection H as -> -> -> -> _. discriminate.
    + injection H as -> -> -> -> _. split; [reflexivity |].
      exists j. split; [exact A | reflexivity].
    + exfalso.
      destruct (run_polled _ _ _ _ Hin L) as (i & jobId & tl & rl & Pl & Htl).
      pose proof (Hl _ _ _ _ _ Pl Htl) as Z. simpl in Z. congruence.
Qed.

Lemma job_id_is_written_once_witness :
  count writes_job_id
    (trace (generate_animation server_js Samples.never_ends Samples.rec_id)) = 1 /\
  exists jobId, Accepted Samples.never_ends jobId /\ jobId = VStr "job1".
Proof.
  split; [vm_compute; reflexivity |].
  destruct (job_id_is_written_once server_js Samples.never_ends Samples.rec_id)
    as [_ H].
  destruct (H AtJobId "animate_generation" Samples.rec_id
              (job_fields Samples.never_ends (VStr "job1")) true)
    as (_ & jobId & A & J); [vm_compute; find_in | reflexivity |].
  exists jobId. split; [exact A |]. now injection J as <-.
Defined.

(** X21.  When the submission passes the success check but its body
    has no [data], reading the job id throws: the run ends there by
    writing [status = 'Failed'], without writing [job_id] and without
    any check. *)
Theorem success_without_data_fails
        (src : Source) (w : World) (recordId : value)
        (url : string) (payload : list (string * value))
        (submitResult data : value) :
  let run := trace (generate_animation src w recordId) in
  In (Submit url payload) run ->
  submit_result w = Ok (true, submitResult) ->
  member submitResult "code" = Ok (VNum 200) ->
  member submitResult "data" = Ok data ->
  nullish data = true ->
  exists e,
    member data "id" = Throw e /\
    result (background src w recordId) = Throw e /\
    ends_Failed src w recordId e run /\
    polls run = 0 /\
    count writes_job_id run = 0.
Proof.
  intros run Hin S C D N.
  assert (Hid : exists e, member data "id" = Throw e).
  { destruct data; try discriminate; simpl; eauto. }
  destruct Hid as (e & Hid). exists e. split; [exact Hid |].
  assert (J : job_id_of submitResult = Throw e).
  { unfold job_id_of. now rewrite D. }
  assert (R : submit_rejected true submitResult = Ok false).
  { apply submit_rejected_false. auto. }
  destruct (run_submitted _ _ _ _ _ Hin)
    as (record & i & T & F & Rd & V & Es &
        [(e' & St & Rb & E) | [(j & e' & A & _) | (j & tl & rl & (_ & _ & A & _))]]).
  2, 3: exfalso; destruct A as (ok' & b' & S' & _ & I); congruence.
  assert (e' = e) as ->.
  { inversion St; subst; congruence. }
  split; [exact Rb |]. split; [now apply run_ends_Failed |].
  unfold run. rewrite E. split; reflexivity.
Qed.

Lemma success_without_data_fails_witness :
  In (Submit Samples.submit_url Samples.payload_seed42)
     (trace (generate_animation server_js Cases.no_data Samples.rec_id)) /\
  polls (trace (generate_animation server_js Cases.no_data Samples.rec_id)) = 0.
Proof.
  assert (Hin : In (Submit Samples.submit_url Samples.payload_seed42)
                   (trace (generate_animation server_js Cases.no_data
                                              Samples.rec_id))).
  { vm_compute. find_in. }
  split; [exact Hin |].
  destruct (success_without_data_fails
              server_js Cases.no_data Samples.rec_id _ _
              (VObj [("code", VNum 200)]) VUndefined
              Hin eq_refl eq_refl eq_refl eq_refl)
    as (e & _ & _ & _ & P & _).
  exact P.
Defined.
